(** * msal-bearer: the decision logic of [bearerauth.py] and [authenticator.py]

    A shallow embedding of the two Python modules of the package.  The
    package itself only branches; everything it talks to (msal,
    msal_extensions, azure.identity, the [os] module, [print]) is an
    external collaborator.  A run is therefore modelled as a computation
    in a state-and-exception monad whose state holds the two module
    globals, the process environment and the chronological list of
    external calls made so far; what a collaborator answers is given by
    an oracle that sees that whole list.

    [bearerauth.py] is the module modelled; the tree also holds an
    earlier revision of it, [BearerAuth.py], which is not. *)

From Stdlib Require Import String Ascii List ZArith Bool Lia.
Import ListNotations.
Open Scope string_scope.

(** ** Python values *)

Module Py.

(** The values the code inspects dynamically.  A [dict] is a JSON object
    as the provider returns it: string keys, looked up first match.
    Tuples are lists.  [PObj] is an opaque library object (an
    application, a persistence, a credential). *)
#[warnings="-register-all"]
Inductive pyval : Type :=
| PNone
| PBool (b : bool)
| PInt (z : Z)
| PStr (s : string)
| PList (l : list pyval)
| PDict (d : list (string * pyval))
| PObj (id : nat).

(** Exception classes, as far as the code tells them apart.  A class
    stands for itself and its subclasses ([except ImportError] also
    catches ModuleNotFoundError).  [Exception_] is the base class when
    raised as such; [LibraryError] is any other class derived from
    Exception; [BaseOnly] is a class derived from BaseException only
    (KeyboardInterrupt, SystemExit), which [except Exception] lets
    through. *)
Inductive exn_class : Type :=
| Exception_
| ValueError
| TypeError
| KeyError
| IndexError
| AttributeError
| ImportError
| RuntimeError
| LibraryError (name : string)
| BaseOnly (name : string).

Record exn : Type := Raise { exn_cls : exn_class; exn_msg : string }.

Definition result (A : Type) : Type := (exn + A)%type.

Definition is_Exception (e : exn) : bool :=
  match exn_cls e with
  | BaseOnly _ => false
  | _ => true
  end.

(** [bool(v)] *)
Definition truthy (v : pyval) : bool :=
  match v with
  | PNone => false
  | PBool b => b
  | PInt z => negb (z =? 0)%Z
  | PStr s => negb (String.length s =? 0)%nat
  | PList l => negb (List.length l =? 0)%nat
  | PDict d => negb (List.length d =? 0)%nat
  | PObj _ => true
  end.

Definition is_none (v : pyval) : bool :=
  match v with PNone => true | _ => false end.

(** [isinstance(v, str)] *)
Definition is_str (v : pyval) : bool :=
  match v with PStr _ => true | _ => false end.

(** [needle in hay] on two strings: substring test. *)
Fixpoint str_in (needle hay : string) : bool :=
  if String.prefix needle hay then true
  else match hay with
       | EmptyString => false
       | String _ rest => str_in needle rest
       end.

(** Lookup in a dict, first match. *)
Fixpoint dict_get (k : string) (d : list (string * pyval)) : option pyval :=
  match d with
  | [] => None
  | (k', v) :: rest => if String.eqb k k' then Some v else dict_get k rest
  end.

Definition dict_has (k : string) (d : list (string * pyval)) : bool :=
  match dict_get k d with Some _ => true | None => false end.

(** [d[k] = v]: the value of a key already there is replaced in place,
    a new key goes to the end. *)
Fixpoint dict_set (k : string) (v : pyval) (d : list (string * pyval))
  : list (string * pyval) :=
  match d with
  | [] => [(k, v)]
  | (k', v') :: rest =>
      if String.eqb k k' then (k', v) :: rest else (k', v') :: dict_set k v rest
  end.

(** [z == v] for an int [z]: a bool compares as 0 or 1. *)
Definition eq_int (z : Z) (v : pyval) : bool :=
  match v with
  | PInt z' => (z =? z')%Z
  | PBool b => (z =? (if b then 1 else 0))%Z
  | _ => false
  end.

Definition eq_str (s : string) (v : pyval) : bool :=
  match v with
  | PStr s' => String.eqb s s'
  | _ => false
  end.

Definition not_iterable : exn := Raise TypeError "argument is not iterable".

(** [z in c] for an int [z].  A dict of this model has string keys only,
    so an int is never among them. *)
Definition int_in (z : Z) (c : pyval) : result bool :=
  match c with
  | PList l => inr (existsb (eq_int z) l)
  | PDict _ => inr false
  | PStr _ => inl (Raise TypeError "'in <string>' requires string as left operand, not int")
  | _ => inl not_iterable
  end.

(** [k in c] for a str [k]. *)
Definition key_in (k : string) (c : pyval) : result bool :=
  match c with
  | PDict d => inr (dict_has k d)
  | PList l => inr (existsb (eq_str k) l)
  | PStr s => inr (str_in k s)
  | _ => inl not_iterable
  end.

(** [c[k]] for a str [k]. *)
Definition getitem_key (c : pyval) (k : string) : result pyval :=
  match c with
  | PDict d => match dict_get k d with
               | Some v => inr v
               | None => inl (Raise KeyError k)
               end
  | _ => inl (Raise TypeError "indices must be integers")
  end.

(** [c[0]] *)
Definition getitem_0 (c : pyval) : result pyval :=
  match c with
  | PList (x :: _) => inr x
  | PList [] => inl (Raise IndexError "list index out of range")
  | PStr (String a _) => inr (PStr (String a EmptyString))
  | PStr EmptyString => inl (Raise IndexError "string index out of range")
  | PDict d => inl (Raise KeyError "0")
  | _ => inl (Raise TypeError "object is not subscriptable")
  end.

(** [c.get(k)] *)
Definition dot_get (c : pyval) (k : string) : result pyval :=
  match c with
  | PDict d => inr (match dict_get k d with Some v => v | None => PNone end)
  | _ => inl (Raise AttributeError "object has no attribute 'get'")
  end.

End Py.
Export Py.

(** ** External collaborators and the run monad *)

Module Runtime.

(** One constructor per external function the package calls, with the
    arguments it is called with. *)
Inductive Call : Type :=
| build_encrypted_persistence (location : string)
| FilePersistence (location : string)
| PersistedTokenCache (persistence : pyval)
| PublicClientApplication (client_id : string) (authority : pyval) (token_cache : pyval)
| get_accounts (app : pyval) (username : pyval)
| acquire_token_silent (app : pyval) (scopes : list string) (account : pyval)
| acquire_token_interactive (app : pyval) (scopes : list string) (domain_hint : string)
| os_path_isfile (path : string)
| os_remove (path : string)
| print (msg : string)
| ConfidentialClientApplication (client_id client_credential authority : string)
| acquire_token_for_client (app : pyval) (scopes : list string)
| DefaultAzureCredential
| credential_get_token (credential : pyval) (scope : string) (tenant_id : string).

(** The collaborators.  [respond h c] is what call [c] answers after the
    calls [h] (oldest first): a value, or a raised exception.  The three
    string functions are the Python runtime's own: [str.upper], and the
    text an f-string gives for a container or an object. *)
Record Env : Type := {
  respond : list Call -> Call -> result pyval;
  upper : string -> string;
  repr_other : pyval -> string;
  str_of_int : Z -> string
}.

(** The module globals of bearerauth.py, the process environment
    ([os.environ]) and the calls made so far. *)
Record State : Type := {
  _token_location : string;
  _username : string;
  environ : string -> option string;
  history : list Call
}.

Definition initial_state (environ0 : string -> option string) : State :=
  {| _token_location := "token_cache.bin";
     _username := "";
     environ := environ0;
     history := [] |}.

Definition M (A : Type) : Type := State -> State * result A.

Definition ret {A} (a : A) : M A := fun st => (st, inr a).

Definition raise {A} (e : exn) : M A := fun st => (st, inl e).

Definition bind {A B} (m : M A) (k : A -> M B) : M B :=
  fun st =>
    match m st with
    | (st', inr a) => k a st'
    | (st', inl e) => (st', inl e)
    end.

Definition lift {A} (r : result A) : M A := fun st => (st, r).

(** [try: m  except Exception: h] *)
Definition try_except_Exception {A} (m : M A) (h : M A) : M A :=
  fun st =>
    match m st with
    | (st', inl e) => if is_Exception e then h st' else (st', inl e)
    | r => r
    end.

(** [try: m  except cls: h] for the two classes get_app_with_cache names. *)
Definition try_except_Import_Runtime {A} (m : M A) (h : M A) : M A :=
  fun st =>
    match m st with
    | (st', inl e) =>
        match exn_cls e with
        | ImportError | RuntimeError => h st'
        | _ => (st', inl e)
        end
    | r => r
    end.

Definition record (c : Call) (st : State) : State :=
  {| _token_location := _token_location st;
     _username := _username st;
     environ := environ st;
     history := history st ++ [c] |}.

(** An external call: ask the oracle, then log the call. *)
Definition call (env : Env) (c : Call) : M pyval :=
  fun st => (record c st, respond env (history st) c).

(** [print(msg)]: logged, answers nothing. *)
Definition do_print (msg : string) : M unit :=
  fun st => (record (print msg) st, inr tt).

Definition when (b : bool) (m : M unit) : M unit :=
  if b then m else ret tt.

(** [str(v)] as an f-string field gives it. *)
Definition py_str (env : Env) (v : pyval) : string :=
  match v with
  | PStr s => s
  | PNone => "None"
  | PBool true => "True"
  | PBool false => "False"
  | PInt z => str_of_int env z
  | _ => repr_other env v
  end.

End Runtime.
Export Runtime.

Declare Scope py_scope.
Delimit Scope py_scope with py.
Notation "x <- m ;; k" := (bind m (fun x => k))
  (at level 61, m at next level, right associativity) : py_scope.
Notation "m ;;; k" := (bind m (fun _ => k))
  (at level 61, right associativity) : py_scope.
Open Scope py_scope.

(** ** bearerauth.py *)

Module bearerauth.

Definition set_global_location (location : string) (st : State) : State :=
  {| _token_location := location;
     _username := _username st;
     environ := environ st;
     history := history st |}.

Definition set_global_username (username : string) (st : State) : State :=
  {| _token_location := _token_location st;
     _username := username;
     environ := environ st;
     history := history st |}.

(** [set_token_location(location)] *)
Definition set_token_location (location : pyval) : M unit :=
  fun st =>
    match location with
    | PStr s =>
        if (4 <? String.length s)%nat && str_in "." s
        then (set_global_location s st, inr tt)
        else (st, inl (Raise ValueError ("Invalid location string " ++ s)))
    | _ => (st, inl (Raise TypeError "Input location shall be a string."))
    end.

Definition get_token_location : M string :=
  fun st => (st, inr (_token_location st)).

Definition set_user_name (username : string) : M unit :=
  fun st => (set_global_username username st, inr tt).

(** [os.getenv(name)] *)
Definition os_getenv (name : string) (st : State) : pyval :=
  match environ st name with
  | Some v => PStr v
  | None => PNone
  end.

Definition env_names : list string := ["LOGNAME"; "USER"; "LNAME"; "USERNAME"].

(** The [for] loop of get_login_name; falling off its end returns None. *)
Fixpoint login_name_loop (names : list string) (st : State) : pyval :=
  match names with
  | [] => PNone
  | name :: rest =>
      if negb (is_none (os_getenv name st)) then os_getenv name st
      else login_name_loop rest st
  end.

Definition get_login_name : M pyval :=
  fun st => (st, inr (login_name_loop env_names st)).

Definition get_user_name : M pyval :=
  fun st =>
    if negb (truthy (PStr (_username st))) then get_login_name st
    else (st, inr (PStr (_username st))).

Definition get_tenant_authority (tenant_id : string) : string :=
  "https://login.microsoftonline.com/" ++ tenant_id.

(** The carrier: [self.token]. *)
Record BearerAuth : Type := { token : pyval }.

(** [BearerAuth.__init__] *)
Definition BearerAuth__init__ (token : pyval) : BearerAuth :=
  match token with
  | PDict d =>
      match dict_get "access_result" d with
      | Some inner => {| token := inner |}
      | None => {| token := token |}
      end
  | _ => {| token := token |}
  end.

(** ["Bearer " + self.token], the header [__call__] sets. *)
Definition authorization_header (self : BearerAuth) : result string :=
  match token self with
  | PStr s => inr ("Bearer " ++ s)
  | _ => inl (Raise TypeError "can only concatenate str to str")
  end.

(** The request [__call__] is applied to: its [headers] mapping, taken
    to be a plain dict, and whatever else it holds. *)
Record Request : Type := { headers : list (string * pyval); payload : pyval }.

(** [BearerAuth.__call__(r)] *)
Definition BearerAuth__call__ (self : BearerAuth) (r : Request) : result Request :=
  match authorization_header self with
  | inr value =>
      inr {| headers := dict_set "authorization" (PStr value) (headers r);
             payload := payload r |}
  | inl e => inl e
  end.

(** The test of line 213: is interactive acquisition needed? *)
Definition needs_interactive (result : pyval) : Py.result bool :=
  if is_none result then inr true
  else match result with
       | PDict d =>
           if dict_has "error_codes" d then
             match getitem_key result "error_codes" with
             | inr codes => int_in 50173 codes
             | inl e => inl e
             end
           else inr false
       | _ => inr false
       end.

(** The test of line 225: does the result carry a usable token? *)
Definition usable (result : pyval) : bool :=
  truthy result &&
  match result with
  | PDict d =>
      dict_has "access_token" d &&
      match dict_get "access_token" d with
      | Some t => truthy t
      | None => false
      end
  | _ => false
  end.

Definition newline : string := String (ascii_of_nat 10) EmptyString.

Section WithEnv.

Variable env : Env.

(** [get_app_with_cache(client_id, authority, token_location)] *)
Definition get_app_with_cache (client_id : string) (authority token_location : pyval)
  : M pyval :=
  (match token_location with
   | PStr s => if (0 <? String.length s)%nat then set_token_location token_location
               else ret tt
   | _ => ret tt
   end) ;;;
  persistence <-
    try_except_Import_Runtime
      (loc <- get_token_location ;; call env (build_encrypted_persistence loc))
      (loc <- get_token_location ;; call env (FilePersistence loc)) ;;
  cache <- call env (PersistedTokenCache persistence) ;;
  call env (PublicClientApplication client_id authority cache).

(** The body of the [try] of get_auth, from the call of
    get_app_with_cache on; the handler runs the same two statements. *)
Definition open_and_list (clientID : string) (authority token_location username : pyval)
  : M (pyval * pyval) :=
  app <- get_app_with_cache clientID authority token_location ;;
  accounts <- call env (get_accounts app username) ;;
  ret (app, accounts).

(** Lines 196-201, the first statement of the [except Exception]
    handler: the file at the global token location is removed if it is
    there. *)
Definition delete_cache_file (verbose : bool) : M unit :=
  loc <- get_token_location ;;
  isfile <- call env (os_path_isfile loc) ;;
  if truthy isfile then
    when verbose
      (loc' <- get_token_location ;;
       do_print ("Failed getting accounts from app with cache. Attempts to delete cache-file at " ++ loc')) ;;;
    loc' <- get_token_location ;;
    _ <- call env (os_remove loc') ;;
    ret tt
  else ret tt.

(** The [except Exception] handler of get_auth. *)
Definition recover (clientID : string) (authority token_location username : pyval)
  (verbose : bool) : M (pyval * pyval) :=
  delete_cache_file verbose ;;;
  open_and_list clientID authority token_location username.

(** Lines 187-188: an empty [token_location] is replaced by the global. *)
Definition effective_location (token_location : pyval) (st : State) : pyval :=
  if negb (truthy token_location) then PStr (_token_location st) else token_location.

(** Lines 186-205: the cache is opened and the accounts listed. *)
Definition cache_phase (clientID : string) (authority token_location username : pyval)
  (verbose : bool) : M (pyval * pyval) :=
  fun st =>
    let token_location := effective_location token_location st in
    try_except_Exception
      (open_and_list clientID authority token_location username)
      (recover clientID authority token_location username verbose) st.

(** Lines 207-211: the silent step. *)
Definition silent_step (scopes : list string) (username app accounts : pyval)
  (verbose : bool) : M pyval :=
  if truthy accounts then
    when verbose
      (do_print ("Found account in token cache: " ++ py_str env username) ;;;
       do_print "Attempting to obtain a new Access Token using the Refresh Token") ;;;
    account <- lift (getitem_0 accounts) ;;
    call env (acquire_token_silent app scopes account)
  else ret PNone.

(** Lines 213-223: the interactive step. *)
Definition interactive_step (tenantID : string) (scopes : list string)
  (app result : pyval) (verbose : bool) : M pyval :=
  need <- lift (needs_interactive result) ;;
  if need then
    when verbose
      (do_print "Interactive Authentication required to obtain a new Access Token.") ;;;
    call env (acquire_token_interactive app scopes tenantID)
  else ret result.

(** Lines 225-237: the verdict. *)
Definition finish (result : pyval) (verbose : bool) : M BearerAuth :=
  if usable result then
    when verbose (do_print "Success") ;;;
    access_token <- lift (getitem_key result "access_token") ;;
    ret (BearerAuth__init__ access_token)
  else
    when verbose (do_print ("Failed, returned:" ++ newline ++ py_str env result)) ;;;
    raise (Raise Exception_ "Failed authenticating").

Definition resolve_authority (tenantID : string) (authority : pyval) : pyval :=
  if is_none authority ||
     match authority with
     | PStr s => (String.length s =? 0)%nat
     | _ => false
     end
  then PStr (get_tenant_authority tenantID)
  else authority.

(** Everything of get_auth before line 213: the final value of [app]
    and the [result] of the silent step. *)
Definition up_to_silent (clientID : string) (scopes : list string)
  (username token_location authority : pyval) (verbose : bool) : M (pyval * pyval) :=
  aa <- cache_phase clientID authority token_location username verbose ;;
  result <- silent_step scopes username (fst aa) (snd aa) verbose ;;
  ret (fst aa, result).

(** Everything of get_auth before line 225: the final [result]. *)
Definition acquire (tenantID clientID : string) (scopes : list string)
  (username token_location authority : pyval) (verbose : bool) : M pyval :=
  ar <- up_to_silent clientID scopes username token_location
          (resolve_authority tenantID authority) verbose ;;
  interactive_step tenantID scopes (fst ar) (snd ar) verbose.

(** [BearerAuth.get_auth] *)
Definition get_auth (tenantID clientID : string) (scopes : list string)
  (username token_location authority : pyval) (verbose : bool) : M BearerAuth :=
  result <- acquire tenantID clientID scopes username token_location authority verbose ;;
  finish result verbose.

(** The module-level [get_token(tenant_id, client_id, scopes)] *)
Definition get_token (tenant_id client_id : string) (scopes : list string) : M pyval :=
  b <- get_auth tenant_id client_id scopes (PStr "") (PStr "") (PStr "") false ;;
  ret (token b).

End WithEnv.

End bearerauth.

(** ** authenticator.py *)

Module Authenticator.

(** A [Union[str, List[str]]] argument. *)
Inductive scope_arg : Type :=
| ScopeStr (s : string)
| ScopeList (l : list string).

(** The instance attributes, typed as [__init__] annotates them. *)
Record Authenticator : Type := {
  tenant_id : option string;
  client_id : option string;
  client_secret : option string;
  authority : option string;
  redirect_uri : option string;
  token : string;
  user_name : string;
  scopes : list string
}.

(** [bool(x)] for an [Optional[str]] and for a [str]. *)
Definition opt_truthy (x : option string) : bool :=
  match x with
  | Some s => negb (String.length s =? 0)%nat
  | None => false
  end.

Definition str_truthy (s : string) : bool := negb (String.length s =? 0)%nat.

(** The string an [Optional[str]] holds. *)
Definition opt_value (x : option string) : string :=
  match x with
  | Some s => s
  | None => ""
  end.

Definition scope_truthy (x : option scope_arg) : bool :=
  match x with
  | Some (ScopeStr s) => str_truthy s
  | Some (ScopeList l) => negb (List.length l =? 0)%nat
  | None => false
  end.

Definition with_scopes (self : Authenticator) (l : list string) : Authenticator :=
  {| tenant_id := tenant_id self; client_id := client_id self;
     client_secret := client_secret self; authority := authority self;
     redirect_uri := redirect_uri self; token := token self;
     user_name := user_name self; scopes := l |}.

Definition set_scope (self : Authenticator) (scope : scope_arg) : Authenticator :=
  match scope with
  | ScopeStr s => with_scopes self [s]
  | ScopeList l => with_scopes self l
  end.

Definition __init__ (tenant_id client_id client_secret authority redirect_uri : option string)
  (scopes : option scope_arg) : Authenticator :=
  let self :=
    {| tenant_id := tenant_id; client_id := client_id;
       client_secret := client_secret; authority := authority;
       redirect_uri := redirect_uri; token := ""; user_name := "";
       scopes := [] |} in
  match scopes with
  | Some s => if scope_truthy scopes then set_scope self s else self
  | None => self
  end.

Definition set_client_id (self : Authenticator) (client_id : string) : Authenticator :=
  {| tenant_id := tenant_id self; client_id := Some client_id;
     client_secret := client_secret self; authority := authority self;
     redirect_uri := redirect_uri self; token := token self;
     user_name := user_name self; scopes := scopes self |}.

Definition set_client_secret (self : Authenticator) (client_secret : string) : Authenticator :=
  {| tenant_id := tenant_id self; client_id := client_id self;
     client_secret := Some client_secret; authority := authority self;
     redirect_uri := redirect_uri self; token := token self;
     user_name := user_name self; scopes := scopes self |}.

Definition set_token (self : Authenticator) (token : string) : Authenticator :=
  {| tenant_id := tenant_id self; client_id := client_id self;
     client_secret := client_secret self; authority := authority self;
     redirect_uri := redirect_uri self; token := token;
     user_name := user_name self; scopes := scopes self |}.

Definition set_user_name_attr (self : Authenticator) (username : string) : Authenticator :=
  {| tenant_id := tenant_id self; client_id := client_id self;
     client_secret := client_secret self; authority := authority self;
     redirect_uri := redirect_uri self; token := token self;
     user_name := username; scopes := scopes self |}.

Definition get_client_id (self : Authenticator) : result string :=
  match client_id self with
  | Some s => if str_truthy s then inr s else inl (Raise ValueError "Client ID is not set")
  | None => inl (Raise ValueError "Client ID is not set")
  end.

Definition get_tenant_id (self : Authenticator) : result string :=
  match tenant_id self with
  | Some s => if str_truthy s then inr s else inl (Raise ValueError "Tenant ID is not set")
  | None => inl (Raise ValueError "Tenant ID is not set")
  end.

Definition get_scope (self : Authenticator) : result (list string) :=
  if (List.length (scopes self) =? 0)%nat then
    match get_client_id self with
    | inr cid => inr [cid ++ "/.default"]
    | inl e => inl e
    end
  else inr (scopes self).

Section WithEnv.

Variable env : Env.

(** [get_az_token(scope)] *)
Definition get_az_token (self : Authenticator) (scope : scope_arg) : M pyval :=
  scope0 <-
    lift (match scope with
          | ScopeList (s :: _) => inr s
          | ScopeList [] => inl (Raise IndexError "list index out of range")
          | ScopeStr s => inr s
          end) ;;
  credential <- call env DefaultAzureCredential ;;
  tid <- lift (get_tenant_id self) ;;
  tok <- call env (credential_get_token credential scope0 tid) ;;
  lift (getitem_0 tok).

(** [get_public_app_token(username, scope)]; [scope] is not used by the
    body.  Returns the instance as the call leaves it, and the token. *)
Definition get_public_app_token (self : Authenticator) (username : option string)
  (scope : option scope_arg) : M (Authenticator * pyval) :=
  let '(self, username) :=
    if negb (opt_truthy username) then (self, user_name self)
    else match username with
         | Some u => (set_user_name_attr self u, u)
         | None => (self, user_name self)
         end in
  let username := upper env username in
  tid <- lift (get_tenant_id self) ;;
  cid <- lift (get_client_id self) ;;
  sc <- lift (get_scope self) ;;
  auth <- bearerauth.get_auth env tid cid sc (PStr username) (PStr "") (PStr "") false ;;
  ret (self, bearerauth.token auth).

(** The confidential-client branch of get_token, lines 86-98. *)
Definition client_secret_exchange (self : Authenticator) (secret : string)
  (scopes : list string) : M pyval :=
  cid <- lift (get_client_id self) ;;
  tid <- lift (get_tenant_id self) ;;
  c <- call env (ConfidentialClientApplication cid secret
                   ("https://login.microsoftonline.com/" ++ tid)) ;;
  d <- call env (acquire_token_for_client c scopes) ;;
  if is_none d then raise (Raise ValueError "Could not get token.")
  else
    has <- lift (key_in "access_token" d) ;;
    if negb has then
      has_descr <- lift (key_in "error_description" d) ;;
      detail <- lift (if has_descr then dot_get d "error_description"
                      else dot_get d "error") ;;
      raise (Raise ValueError ("Could not get token: " ++ py_str env detail))
    else lift (getitem_key d "access_token").

(** [get_token(scopes)]: the instance as the call leaves it, and the token. *)
Definition get_token (self : Authenticator) (scopes : option (list string))
  : M (Authenticator * pyval) :=
  if str_truthy (token self) then ret (self, PStr (token self))
  else
    scopes <- match scopes with
              | None => lift (get_scope self)
              | Some l => ret l
              end ;;
    if opt_truthy (client_secret self) then
      t <- client_secret_exchange self (opt_value (client_secret self)) scopes ;;
      ret (self, t)
    else if opt_truthy (client_id self) then get_public_app_token self None None
    else
      sc <- lift (get_scope self) ;;
      t <- get_az_token self (ScopeList sc) ;;
      ret (self, t).

End WithEnv.

End Authenticator.

(** * Properties *)

(** ** Strings and values *)

Section Values.

(** The string has the character ["."] somewhere. *)
Definition contains_dot (s : string) : Prop :=
  exists a b, s = a ++ "." ++ b.

Lemma str_in_dot (s : string) : str_in "." s = true <-> contains_dot s.
Proof.
  unfold contains_dot. induction s as [|c s IH].
  - split; [discriminate|]. intros [[|x a] [b H]]; discriminate.
  - cbn [str_in String.prefix].
    destruct (ascii_dec "." c) as [<-|Hc].
    + split; [|destruct s; reflexivity]. intros _. exists "", s. reflexivity.
    + rewrite IH. split.
      * intros (a & b & ->). exists (String c a), b. reflexivity.
      * intros ([|x a] & b & H); cbn in H; injection H as -> ->.
        -- contradiction Hc. reflexivity.
        -- exists a, b. reflexivity.
Qed.

Lemma eq_int_50173 (v : pyval) : eq_int 50173 v = true <-> v = PInt 50173.
Proof.
  destruct v as [| b | z | | | |]; unfold eq_int; try (split; discriminate).
  - destruct b; split; discriminate.
  - rewrite Z.eqb_eq. split; congruence.
Qed.

Lemma existsb_eq_int_50173 (codes : list pyval) :
  existsb (eq_int 50173) codes = true <-> In (PInt 50173) codes.
Proof.
  rewrite existsb_exists. split.
  - intros (v & Hin & Hv). apply eq_int_50173 in Hv. subst. exact Hin.
  - intros Hin. exists (PInt 50173). split; [exact Hin | reflexivity].
Qed.

Lemma str_truthy_iff (s : string) : truthy (PStr s) = true <-> s <> "".
Proof.
  destruct s; cbn; split; congruence.
Qed.

End Values.

(** ** The module globals *)

Section Globals.

Import bearerauth.

(** What set_token_location accepts. *)
Definition valid_location (s : string) : Prop :=
  4 < String.length s /\ contains_dot s.

Lemma valid_location_test (s : string) :
  (4 <? String.length s)%nat && str_in "." s = true <-> valid_location s.
Proof.
  unfold valid_location.
  rewrite andb_true_iff, Nat.ltb_lt, str_in_dot. reflexivity.
Qed.

(** C10.  set_token_location stores its argument in the global token
    location exactly when the argument is a string longer than 4 that
    contains a dot; any other string raises ValueError, anything that is
    not a string raises TypeError, and a call that raises leaves the
    whole state, the global included, as it was. *)
Theorem set_token_location_updates_iff (location : pyval) (st : State) :
  let out := set_token_location location st in
  (snd out = inr tt <-> exists s, location = PStr s /\ valid_location s) /\
  (forall s, location = PStr s -> valid_location s ->
     fst out = set_global_location s st /\ _token_location (fst out) = s) /\
  (forall s, location = PStr s -> ~ valid_location s ->
     out = (st, inl (Raise ValueError ("Invalid location string " ++ s)))) /\
  (is_str location = false ->
     out = (st, inl (Raise TypeError "Input location shall be a string."))) /\
  (snd out <> inr tt -> fst out = st).
Proof.
  cbv zeta. unfold set_token_location.
  destruct location as [| b | z | s | l | d | n];
    try (cbn [fst snd is_str];
         split; [split; [discriminate | intros (s & Hs & _); discriminate Hs]|];
         split; [intros s Hs; discriminate Hs|];
         split; [intros s Hs; discriminate Hs|];
         split; reflexivity).
  destruct ((4 <? String.length s)%nat && str_in "." s) eqn:Hv; cbn [fst snd is_str].
  - apply valid_location_test in Hv.
    split; [|split; [|split; [|split]]].
    + split; [|reflexivity]. intros _. exists s. split; [reflexivity | exact Hv].
    + intros s' Hs _. injection Hs as <-. split; reflexivity.
    + intros s' Hs Hn. injection Hs as <-. contradiction.
    + discriminate.
    + intros Hne. contradiction Hne. reflexivity.
  - assert (Hn : ~ valid_location s).
    { intros H. apply valid_location_test in H. congruence. }
    split; [|split; [|split; [|split]]].
    + split; [discriminate|]. intros (s' & Hs & Hv'). injection Hs as <-. contradiction.
    + intros s' Hs Hv'. injection Hs as <-. contradiction.
    + intros s' Hs _. injection Hs as <-. reflexivity.
    + discriminate.
    + reflexivity.
Qed.

Definition no_environ : string -> option string := fun _ => None.

Lemma set_token_location_updates_iff_witness :
  _token_location
    (fst (set_token_location (PStr "cache.bin") (initial_state no_environ)))
  = "cache.bin".
Proof.
  destruct (set_token_location_updates_iff (PStr "cache.bin") (initial_state no_environ))
    as (_ & H & _).
  apply (H "cache.bin" eq_refl).
  split; [cbn; lia | exists "cache", "bin"; reflexivity].
Defined.

(** The claim's reading of get_login_name, in the spec's words: the
    first non-empty value among the variables, else nothing. *)
Fixpoint first_nonempty_value (names : list string) (st : State) : pyval :=
  match names with
  | [] => PNone
  | name :: rest =>
      match environ st name with
      | Some v => if (String.length v =? 0)%nat then first_nonempty_value rest st
                  else PStr v
      | None => first_nonempty_value rest st
      end
  end.

(** A login environment in which LOGNAME is set but empty. *)
Definition environ_empty_LOGNAME : string -> option string :=
  fun name =>
    if String.eqb name "LOGNAME" then Some ""
    else if String.eqb name "USER" then Some "alice"
    else None.

(** C9 fails as stated: a variable that is set to the empty string is
    returned, although a later variable holds a non-empty value. *)
Lemma get_user_name_returns_empty_value :
  _username (initial_state environ_empty_LOGNAME) = "" /\
  first_nonempty_value env_names (initial_state environ_empty_LOGNAME) = PStr "alice" /\
  snd (get_user_name (initial_state environ_empty_LOGNAME)) = inr (PStr "") /\
  snd (get_user_name (initial_state environ_empty_LOGNAME))
    <> inr (first_nonempty_value env_names (initial_state environ_empty_LOGNAME)).
Proof.
  repeat split. vm_compute. discriminate.
Qed.

Lemma login_name_loop_first_set (st : State) (before after : list string)
  (name v : string) :
  (forall n, In n before -> environ st n = None) ->
  environ st name = Some v ->
  login_name_loop (before ++ name :: after)%list st = PStr v.
Proof.
  intros Hbefore Hname. induction before as [|n before IH]; cbn.
  - unfold os_getenv. rewrite Hname. reflexivity.
  - unfold os_getenv at 1 2. rewrite (Hbefore n (or_introl eq_refl)). cbn.
    apply IH. intros m Hm. apply Hbefore. right. exact Hm.
Qed.

Lemma login_name_loop_none_set (st : State) (names : list string) :
  (forall n, In n names -> environ st n = None) ->
  login_name_loop names st = PNone.
Proof.
  intros Hnone. induction names as [|n names IH]; cbn.
  - reflexivity.
  - unfold os_getenv. rewrite (Hnone n (or_introl eq_refl)). cbn.
    apply IH. intros m Hm. apply Hnone. right. exact Hm.
Qed.

(** C9, amended.  With no global username set, get_user_name probes
    LOGNAME, USER, LNAME, USERNAME in that order and returns the value of
    the first one that is set, empty or not; it returns None when none of
    the four is set.  The state is not touched. *)
Theorem get_user_name_first_set (st : State) :
  _username st = "" ->
  env_names = ["LOGNAME"; "USER"; "LNAME"; "USERNAME"] /\
  fst (get_user_name st) = st /\
  (forall before name after v,
     env_names = (before ++ name :: after)%list ->
     (forall n, In n before -> environ st n = None) ->
     environ st name = Some v ->
     snd (get_user_name st) = inr (PStr v)) /\
  ((forall n, In n env_names -> environ st n = None) ->
   snd (get_user_name st) = inr PNone).
Proof.
  intros Hu. unfold get_user_name, get_login_name. rewrite Hu. cbn [truthy String.length Nat.eqb negb fst snd].
  repeat split.
  - intros before name after v Hsplit Hbefore Hname. rewrite Hsplit.
    f_equal. apply login_name_loop_first_set; assumption.
  - intros Hnone. f_equal. apply login_name_loop_none_set. exact Hnone.
Qed.

Lemma get_user_name_first_set_witness :
  snd (get_user_name (initial_state environ_empty_LOGNAME)) = inr (PStr "").
Proof.
  destruct (get_user_name_first_set (initial_state environ_empty_LOGNAME) eq_refl)
    as (_ & _ & H & _).
  apply (H [] "LOGNAME" ["USER"; "LNAME"; "USERNAME"] "").
  - reflexivity.
  - intros n [].
  - reflexivity.
Defined.

End Globals.

(** ** The carrier *)

Section Carrier.

Import bearerauth.

(** What the claim allows as input of the constructor: a raw string, or
    a dict with an ["access_result"] key. *)
Definition carrier_input (t : pyval) : Prop :=
  (exists s, t = PStr s) \/
  (exists d inner, t = PDict d /\ dict_get "access_result" d = Some inner).

(** The internal token is a plain, non-empty string. *)
Definition plain_nonempty (v : pyval) : Prop :=
  exists s, v = PStr s /\ s <> "".

(** C8 fails as stated: the constructor checks nothing, so an empty
    string stays empty and a non-string under ["access_result"] stays a
    non-string. *)
Lemma BearerAuth_init_keeps_empty :
  carrier_input (PStr "") /\
  token (BearerAuth__init__ (PStr "")) = PStr "" /\
  ~ plain_nonempty (token (BearerAuth__init__ (PStr ""))) /\
  carrier_input (PDict [("access_result", PInt 5)]) /\
  token (BearerAuth__init__ (PDict [("access_result", PInt 5)])) = PInt 5.
Proof.
  repeat split.
  - left. exists "". reflexivity.
  - intros (s & Hs & Hne). cbn in Hs. injection Hs as <-. contradiction Hne. reflexivity.
  - right. exists [("access_result", PInt 5)], (PInt 5). split; reflexivity.
Qed.

(** C8, amended.  The constructor stores a raw string as it is, and for
    a dict with an ["access_result"] key the value under that key (one
    level); the stored token is a plain non-empty string exactly when
    that string, or that value, is one. *)
Theorem BearerAuth_init_token (t : pyval) :
  (forall s, t = PStr s -> token (BearerAuth__init__ t) = PStr s) /\
  (forall d inner, t = PDict d -> dict_get "access_result" d = Some inner ->
     token (BearerAuth__init__ t) = inner) /\
  (forall s, t = PStr s -> (plain_nonempty (token (BearerAuth__init__ t)) <-> s <> "")) /\
  (forall d inner, t = PDict d -> dict_get "access_result" d = Some inner ->
     (plain_nonempty (token (BearerAuth__init__ t)) <-> plain_nonempty inner)).
Proof.
  split; [|split; [|split]].
  - intros s ->. reflexivity.
  - intros d inner -> Hget. cbn. rewrite Hget. reflexivity.
  - intros s ->. split.
    + intros (s' & Hs & Hne). cbn in Hs. congruence.
    + intros Hne. exists s. split; [reflexivity | exact Hne].
  - intros d inner -> Hget. cbn. rewrite Hget. reflexivity.
Qed.

Lemma BearerAuth_init_token_witness :
  token (BearerAuth__init__ (PDict [("access_result", PStr "XYZ")])) = PStr "XYZ".
Proof.
  destruct (BearerAuth_init_token (PDict [("access_result", PStr "XYZ")])) as (_ & H & _).
  apply (H [("access_result", PStr "XYZ")] (PStr "XYZ")); reflexivity.
Defined.

End Carrier.

(** ** Which calls a run makes *)

(** The three acquisition strategies of the package, and the strategy
    each external call belongs to.  The [os] calls and [print] are only
    made by the public-client path. *)
Inductive strategy : Type := Confidential | PublicClient | Ambient.

Definition strategy_of (c : Call) : strategy :=
  match c with
  | ConfidentialClientApplication _ _ _ | acquire_token_for_client _ _ => Confidential
  | DefaultAzureCredential | credential_get_token _ _ _ => Ambient
  | _ => PublicClient
  end.

Definition is_interactive (c : Call) : bool :=
  match c with
  | acquire_token_interactive _ _ _ => true
  | _ => false
  end.

(** The interactive calls among [h], in order. *)
Definition interactive_calls (h : list Call) : list Call := filter is_interactive h.

(** The calls a run of [m] from [st] adds to the history. *)
Definition calls_made {A} (m : M A) (st : State) : list Call :=
  skipn (List.length (history st)) (history (fst (m st))).

(** [m] only appends to the history, and only calls that satisfy [P]. *)
Definition emits {A} (P : Call -> Prop) (m : M A) : Prop :=
  forall st, exists new,
    history (fst (m st)) = (history st ++ new)%list /\ Forall P new.

Section Emits.

Context {A B : Type} (P : Call -> Prop).

Lemma emits_ret (a : A) : emits P (ret a).
Proof. intros st. exists []. cbn. rewrite app_nil_r. auto. Qed.

Lemma emits_raise (e : exn) : emits P (@raise A e).
Proof. intros st. exists []. cbn. rewrite app_nil_r. auto. Qed.

Lemma emits_lift (r : result A) : emits P (lift r).
Proof. intros st. exists []. cbn. rewrite app_nil_r. auto. Qed.

Lemma emits_bind (m : M A) (k : A -> M B) :
  emits P m -> (forall a, emits P (k a)) -> emits P (bind m k).
Proof.
  intros Hm Hk st. unfold bind.
  destruct (Hm st) as (n1 & H1 & F1).
  destruct (m st) as [st1 [e|a]]; cbn in *.
  - exists n1. auto.
  - destruct (Hk a st1) as (n2 & H2 & F2).
    exists (n1 ++ n2)%list. rewrite H2, H1, app_assoc. split; [reflexivity|].
    apply Forall_app; auto.
Qed.

Lemma emits_try_except_Exception (m h : M A) :
  emits P m -> emits P h -> emits P (try_except_Exception m h).
Proof.
  intros Hm Hh st. unfold try_except_Exception.
  destruct (Hm st) as (n1 & H1 & F1).
  destruct (m st) as [st1 [e|a]]; cbn in *; [|exists n1; auto].
  destruct (is_Exception e); [|exists n1; auto].
  destruct (Hh st1) as (n2 & H2 & F2).
  exists (n1 ++ n2)%list. rewrite H2, H1, app_assoc. split; [reflexivity|].
  apply Forall_app; auto.
Qed.

Lemma emits_try_except_Import_Runtime (m h : M A) :
  emits P m -> emits P h -> emits P (try_except_Import_Runtime m h).
Proof.
  intros Hm Hh st. unfold try_except_Import_Runtime.
  destruct (Hm st) as (n1 & H1 & F1).
  destruct (m st) as [st1 [e|a]]; cbn in *; [|exists n1; auto].
  destruct (Hh st1) as (n2 & H2 & F2).
  destruct (exn_cls e); try (exists n1; auto; fail);
    (exists (n1 ++ n2)%list; rewrite H2, H1, app_assoc; split; [reflexivity|];
     apply Forall_app; auto).
Qed.

End Emits.

Section EmitsPrimitives.

Context (P : Call -> Prop).

Lemma emits_call (env : Env) (c : Call) : P c -> emits P (call env c).
Proof. intros Hc st. exists [c]. cbn. auto. Qed.

Lemma emits_do_print (msg : string) : P (print msg) -> emits P (do_print msg).
Proof. intros Hc st. exists [print msg]. cbn. auto. Qed.

Lemma emits_when (b : bool) (m : M unit) : emits P m -> emits P (when b m).
Proof. intros Hm. destruct b; [exact Hm | apply emits_ret]. Qed.

Lemma emits_get_token_location : emits P bearerauth.get_token_location.
Proof. intros st. exists []. cbn. rewrite app_nil_r. auto. Qed.

Lemma emits_set_token_location (location : pyval) :
  emits P (bearerauth.set_token_location location).
Proof.
  intros st. exists []. rewrite app_nil_r. split; [|auto].
  unfold bearerauth.set_token_location.
  destruct location; try reflexivity.
  destruct (_ && _); reflexivity.
Qed.

Lemma emits_weaken {A} (Q : Call -> Prop) (m : M A) :
  (forall c, Q c -> P c) -> emits Q m -> emits P m.
Proof.
  intros HQP Hm st. destruct (Hm st) as (n & H & F).
  exists n. split; [exact H|]. eapply Forall_impl; eauto.
Qed.

End EmitsPrimitives.

Lemma emits_calls_made {A} (P : Call -> Prop) (m : M A) (st : State) :
  emits P m ->
  history (fst (m st)) = (history st ++ calls_made m st)%list /\
  Forall P (calls_made m st).
Proof.
  intros Hm. destruct (Hm st) as (n & H & F). unfold calls_made.
  rewrite H, skipn_app, skipn_all, Nat.sub_diag. cbn. auto.
Qed.

Lemma calls_made_unique {A} (m : M A) (st : State) (new : list Call) :
  history (fst (m st)) = (history st ++ new)%list -> calls_made m st = new.
Proof.
  intros H. unfold calls_made.
  rewrite H, skipn_app, skipn_all, Nat.sub_diag. reflexivity.
Qed.

Lemma interactive_calls_app (h1 h2 : list Call) :
  interactive_calls (h1 ++ h2) = (interactive_calls h1 ++ interactive_calls h2)%list.
Proof. apply filter_app. Qed.

Lemma interactive_calls_none (h : list Call) :
  Forall (fun c => is_interactive c = false) h -> interactive_calls h = [].
Proof.
  induction 1 as [|c h Hc _ IH]; cbn; [reflexivity|].
  rewrite Hc. exact IH.
Qed.

(** Decompose a computation into its primitives; what is left are the
    side conditions on the calls. *)
Ltac emits_tac :=
  repeat match goal with
    | |- emits _ (ret _) => apply emits_ret
    | |- emits _ (raise _) => apply emits_raise
    | |- emits _ (lift _) => apply emits_lift
    | |- emits _ bearerauth.get_token_location => apply emits_get_token_location
    | |- emits _ (bearerauth.set_token_location _) => apply emits_set_token_location
    | |- emits _ (call _ _) => apply emits_call
    | |- emits _ (do_print _) => apply emits_do_print
    | |- emits _ (when _ _) => apply emits_when
    | |- emits _ (try_except_Exception _ _) => apply emits_try_except_Exception
    | |- emits _ (try_except_Import_Runtime _ _) => apply emits_try_except_Import_Runtime
    | |- emits _ (bind _ _) => apply emits_bind; [|intros ?]
    | |- emits _ (if ?b then _ else _) => destruct b
    | |- emits _ (match ?x with _ => _ end) => destruct x
    end.

(** ** get_auth: the calls of each phase *)

Section GetAuthCalls.

Import bearerauth.

Variable env : Env.

(** A call of the public-client path other than the interactive one. *)
Definition quiet (c : Call) : Prop :=
  strategy_of c = PublicClient /\ is_interactive c = false.

Lemma get_app_with_cache_quiet (client_id : string) (authority token_location : pyval) :
  emits quiet (get_app_with_cache env client_id authority token_location).
Proof.
  unfold get_app_with_cache. emits_tac; split; reflexivity.
Qed.

Lemma open_and_list_quiet (clientID : string) (authority token_location username : pyval) :
  emits quiet (open_and_list env clientID authority token_location username).
Proof.
  unfold open_and_list. emits_tac;
    try apply get_app_with_cache_quiet; split; reflexivity.
Qed.

Lemma cache_phase_quiet (clientID : string) (authority token_location username : pyval)
  (verbose : bool) :
  emits quiet (cache_phase env clientID authority token_location username verbose).
Proof.
  intros st. unfold cache_phase. cbv zeta.
  set (tl := effective_location token_location st).
  assert (H : emits quiet
    (try_except_Exception
       (open_and_list env clientID authority tl username)
       (recover env clientID authority tl username verbose))).
  { unfold recover, delete_cache_file. emits_tac;
      try apply open_and_list_quiet; split; reflexivity. }
  exact (H st).
Qed.

Lemma silent_step_quiet (scopes : list string) (username app accounts : pyval)
  (verbose : bool) :
  emits quiet (silent_step env scopes username app accounts verbose).
Proof.
  unfold silent_step. emits_tac; split; reflexivity.
Qed.

Lemma up_to_silent_quiet (clientID : string) (scopes : list string)
  (username token_location authority : pyval) (verbose : bool) :
  emits quiet (up_to_silent env clientID scopes username token_location authority verbose).
Proof.
  unfold up_to_silent. emits_tac;
    try apply cache_phase_quiet; try apply silent_step_quiet.
Qed.

Lemma finish_quiet (result : pyval) (verbose : bool) :
  emits quiet (finish env result verbose).
Proof.
  unfold finish. emits_tac; split; reflexivity.
Qed.

Lemma interactive_step_public (tenantID : string) (scopes : list string)
  (app result : pyval) (verbose : bool) :
  emits (fun c => strategy_of c = PublicClient)
    (interactive_step env tenantID scopes app result verbose).
Proof.
  unfold interactive_step. emits_tac; reflexivity.
Qed.

Lemma quiet_public (c : Call) : quiet c -> strategy_of c = PublicClient.
Proof. intros [H _]. exact H. Qed.

Lemma quiet_not_interactive (c : Call) : quiet c -> is_interactive c = false.
Proof. intros [_ H]. exact H. Qed.

(** Every call get_auth makes belongs to the public-client path. *)
Lemma get_auth_public (tenantID clientID : string) (scopes : list string)
  (username token_location authority : pyval) (verbose : bool) :
  emits (fun c => strategy_of c = PublicClient)
    (get_auth env tenantID clientID scopes username token_location authority verbose).
Proof.
  unfold get_auth, acquire.
  apply emits_bind; [apply emits_bind|].
  - eapply emits_weaken; [apply quiet_public | apply up_to_silent_quiet].
  - intros ar. apply interactive_step_public.
  - intros r. eapply emits_weaken; [apply quiet_public | apply finish_quiet].
Qed.

End GetAuthCalls.

(** ** get_auth: when the interactive flow runs *)

Section Interactive.

Import bearerauth.

(** The silent step left no result, or an error response whose list of
    error codes contains 50173. *)
Definition no_result_or_50173 (result : pyval) : Prop :=
  result = PNone \/
  exists d codes, result = PDict d /\
                  dict_get "error_codes" d = Some (PList codes) /\
                  In (PInt 50173) codes.

Lemma needs_interactive_iff (result : pyval) :
  needs_interactive result = inr true <-> no_result_or_50173 result.
Proof.
  unfold no_result_or_50173, needs_interactive.
  destruct result as [| b | z | s | l | d | n]; cbn [is_none];
    try (split; [discriminate | intros [H | (d' & codes & H & _)]; discriminate H]).
  - split; auto.
  - unfold dict_has, getitem_key.
    destruct (dict_get "error_codes" d) as [codes|] eqn:Hget.
    + split.
      * intros H. right.
        destruct codes as [| | | | l | |]; try discriminate H.
        exists d, l. repeat split; [exact Hget|].
        apply existsb_eq_int_50173. cbn in H. congruence.
      * intros [H | (d' & l & Hd & Hl & Hin)]; [discriminate H|].
        injection Hd as <-. rewrite Hget in Hl. injection Hl as ->.
        cbn. f_equal. apply existsb_eq_int_50173. exact Hin.
    + split; [discriminate|].
      intros [H | (d' & l & Hd & Hl & _)]; [discriminate H|].
      injection Hd as <-. rewrite Hget in Hl. discriminate Hl.
Qed.

Lemma needs_interactive_other_code (d : list (string * pyval)) (codes : list pyval) :
  dict_get "error_codes" d = Some (PList codes) -> ~ In (PInt 50173) codes ->
  needs_interactive (PDict d) = inr false.
Proof.
  intros Hget Hnot. unfold needs_interactive, dict_has, getitem_key.
  cbn [is_none]. rewrite Hget. cbn. f_equal.
  destruct (existsb (eq_int 50173) codes) eqn:E; [|reflexivity].
  apply existsb_eq_int_50173 in E. contradiction.
Qed.

Variable env : Env.
Variables tenantID clientID : string.
Variable scopes : list string.
Variables username token_location authority : pyval.
Variable verbose : bool.

(** The interactive call get_auth is due to make after the silent step. *)
Definition due_interactive (before : result (pyval * pyval)) : list Call :=
  match before with
  | inr (app, result) =>
      match needs_interactive result with
      | inr true => [acquire_token_interactive app scopes tenantID]
      | _ => []
      end
  | inl _ => []
  end.

Lemma interactive_step_calls (app result : pyval) (st : State) :
  interactive_calls
    (calls_made (interactive_step env tenantID scopes app result verbose) st)
  = due_interactive (inr (app, result)).
Proof.
  unfold due_interactive, interactive_step, bind, lift.
  destruct (needs_interactive result) as [e | [|]].
  - rewrite (calls_made_unique _ st []); [reflexivity|].
    cbn. rewrite app_nil_r. reflexivity.
  - destruct verbose.
    + rewrite (calls_made_unique _ st
        [print "Interactive Authentication required to obtain a new Access Token.";
         acquire_token_interactive app scopes tenantID]); [reflexivity|].
      cbn. rewrite <- app_assoc. reflexivity.
    + rewrite (calls_made_unique _ st [acquire_token_interactive app scopes tenantID]);
        reflexivity.
  - rewrite (calls_made_unique _ st []); [reflexivity|].
    cbn. rewrite app_nil_r. reflexivity.
Qed.

Lemma calls_made_bind {A B} (P : Call -> Prop) (m : M A) (k : A -> M B) (st : State) :
  emits P m -> (forall a, emits P (k a)) ->
  calls_made (bind m k) st
  = (calls_made m st ++
     match m st with
     | (st1, inr a) => calls_made (k a) st1
     | (_, inl _) => []
     end)%list.
Proof.
  intros Hm Hk. apply calls_made_unique.
  destruct (emits_calls_made P m st Hm) as [H1 _].
  unfold bind. destruct (m st) as [st1 [e|a]]; cbn [fst] in *.
  - rewrite app_nil_r. exact H1.
  - destruct (emits_calls_made P (k a) st1 (Hk a)) as [H2 _].
    rewrite H2, H1, app_assoc. reflexivity.
Qed.

(** The verdict on a result, whatever is printed. *)
Lemma finish_verdict (result : pyval) (st : State) :
  snd (finish env result verbose st)
  = if usable result
    then match getitem_key result "access_token" with
         | inr t => inr (BearerAuth__init__ t)
         | inl e => inl e
         end
    else inl (Raise Exception_ "Failed authenticating").
Proof.
  unfold finish. destruct (usable result).
  - unfold bind, lift, ret.
    destruct verbose; cbn; destruct (getitem_key result "access_token"); reflexivity.
  - destruct verbose; reflexivity.
Qed.

Let run : M BearerAuth :=
  get_auth env tenantID clientID scopes username token_location authority verbose.

Let before_interactive : M (pyval * pyval) :=
  up_to_silent env clientID scopes username token_location
    (resolve_authority tenantID authority) verbose.

Lemma run_appends (st : State) :
  history (fst (run st)) = (history st ++ calls_made run st)%list.
Proof.
  apply (emits_calls_made (fun c => strategy_of c = PublicClient)).
  apply get_auth_public.
Qed.

(** The interactive calls of a whole run are those due after the silent
    step: the phases before and after make none. *)
Lemma run_interactive_calls (st : State) :
  interactive_calls (calls_made run st) = due_interactive (snd (before_interactive st)).
Proof.
  unfold run, get_auth, acquire.
  rewrite (calls_made_bind (fun c => strategy_of c = PublicClient)).
  2:{ apply emits_bind.
      - eapply emits_weaken; [apply quiet_public | apply up_to_silent_quiet].
      - intros ar. apply interactive_step_public. }
  2:{ intros r. eapply emits_weaken; [apply quiet_public | apply finish_quiet]. }
  rewrite (calls_made_bind (fun c => strategy_of c = PublicClient)).
  2:{ eapply emits_weaken; [apply quiet_public | apply up_to_silent_quiet]. }
  2:{ intros ar. apply interactive_step_public. }
  rewrite !interactive_calls_app. fold before_interactive.
  assert (H1 : interactive_calls (calls_made before_interactive st) = []).
  { apply interactive_calls_none.
    destruct (emits_calls_made quiet before_interactive st) as [_ F].
    - apply up_to_silent_quiet.
    - eapply Forall_impl; [apply quiet_not_interactive | exact F]. }
  rewrite H1, app_nil_l.
  unfold bind at 1. fold before_interactive.
  destruct (before_interactive st) as [st1 [e | [app result]]]; cbn [snd fst].
  - reflexivity.
  - rewrite (interactive_step_calls app result st1).
    destruct (interactive_step env tenantID scopes app result verbose st1)
      as [st2 [e | r]].
    + rewrite app_nil_r. reflexivity.
    + assert (H3 : interactive_calls (calls_made (finish env r verbose) st2) = []).
      { apply interactive_calls_none.
        destruct (emits_calls_made quiet (finish env r verbose) st2) as [_ F].
        - apply finish_quiet.
        - eapply Forall_impl; [apply quiet_not_interactive | exact F]. }
      rewrite H3, app_nil_r. reflexivity.
Qed.

Lemma run_after_silent (st st1 : State) (app result : pyval) :
  before_interactive st = (st1, inr (app, result)) ->
  run st = bind (interactive_step env tenantID scopes app result verbose)
             (fun r => finish env r verbose) st1.
Proof.
  intros Hb. unfold run, get_auth, acquire, bind. fold before_interactive.
  rewrite Hb. reflexivity.
Qed.

Lemma run_without_interactive (st st1 : State) (app result : pyval) :
  before_interactive st = (st1, inr (app, result)) ->
  needs_interactive result = inr false ->
  run st = finish env result verbose st1.
Proof.
  intros Hb Hn. rewrite (run_after_silent st st1 app result Hb).
  unfold interactive_step, bind, lift. rewrite Hn. reflexivity.
Qed.

End Interactive.

(** ** Scripted providers *)

(** A provider that answers by [script], with the runtime's string
    functions stubbed. *)
Definition scripted (script : list Call -> Call -> result pyval) : Env :=
  {| respond := script;
     upper := fun s => s;
     repr_other := fun _ => "<object>";
     str_of_int := fun _ => "<int>" |}.

(** An empty cache; the interactive flow returns the token ["XYZ"]. *)
Definition provider_empty_cache : Env :=
  scripted (fun _ c =>
    match c with
    | get_accounts _ _ => inr (PList [])
    | acquire_token_interactive _ _ _ => inr (PDict [("access_token", PStr "XYZ")])
    | os_path_isfile _ => inr (PBool false)
    | _ => inr (PObj 0)
    end).

(** One cached account; silent acquisition answers with an error
    response whose only code is 70000 (invalid grant).  The interactive
    flow would succeed if asked. *)
Definition provider_invalid_grant : Env :=
  scripted (fun _ c =>
    match c with
    | get_accounts _ _ => inr (PList [PObj 7])
    | acquire_token_silent _ _ _ =>
        inr (PDict [("error", PStr "invalid_grant"); ("error_codes", PList [PInt 70000])])
    | acquire_token_interactive _ _ _ => inr (PDict [("access_token", PStr "XYZ")])
    | os_path_isfile _ => inr (PBool false)
    | _ => inr (PObj 0)
    end).

(** One cached account; silent acquisition returns the token ["CACHED"]. *)
Definition provider_cached_token : Env :=
  scripted (fun _ c =>
    match c with
    | get_accounts _ _ => inr (PList [PObj 7])
    | acquire_token_silent _ _ _ => inr (PDict [("access_token", PStr "CACHED")])
    | acquire_token_interactive _ _ _ => inr (PDict [("access_token", PStr "XYZ")])
    | os_path_isfile _ => inr (PBool true)
    | _ => inr (PObj 0)
    end).

Definition fresh : State := initial_state no_environ.

(** ** get_auth: the claims *)

Section GetAuthClaims.

Import bearerauth.

Variable env : Env.
Variables tenantID clientID : string.
Variable scopes : list string.
Variables username token_location authority : pyval.
Variable verbose : bool.

Let the_run : M BearerAuth :=
  get_auth env tenantID clientID scopes username token_location authority verbose.

Let the_silent_part : M (pyval * pyval) :=
  up_to_silent env clientID scopes username token_location
    (resolve_authority tenantID authority) verbose.

(** A response that carries a usable token. *)
Definition usable_response (result : pyval) : Prop :=
  exists d t, result = PDict d /\ dict_get "access_token" d = Some t /\ truthy t = true.

(** A usable response that is not an error response. *)
Definition success_response (result : pyval) : Prop :=
  usable_response result /\
  forall d, result = PDict d -> dict_get "error_codes" d = None.

Lemma success_not_needing (result : pyval) :
  success_response result -> needs_interactive result = inr false.
Proof.
  intros [(d & t & -> & _ & _) Hnone].
  unfold needs_interactive, dict_has. cbn [is_none].
  rewrite (Hnone d eq_refl). reflexivity.
Qed.

Lemma silent_part_split (st st1 st2 : State) (app accounts result : pyval) :
  cache_phase env clientID (resolve_authority tenantID authority) token_location
    username verbose st = (st1, inr (app, accounts)) ->
  silent_step env scopes username app accounts verbose st1 = (st2, inr result) ->
  the_silent_part st = (st2, inr (app, result)).
Proof.
  intros Hc Hs. unfold the_silent_part, up_to_silent, bind.
  rewrite Hc. cbn [fst snd]. rewrite Hs. reflexivity.
Qed.

(** C1.  A run of get_auth only appends calls; it calls
    acquire_token_interactive exactly when the part of the run up to and
    including the silent step ended with no result or with an error
    response whose error-code list contains 50173, and then it calls it
    once, with the requested scopes and the tenant id as domain hint.
    In particular, with at least one cached account and a successful
    silent response the interactive flow is not called. *)
Theorem interactive_exactly_when_needed (st : State) :
  history (fst (the_run st)) = (history st ++ calls_made the_run st)%list /\
  (interactive_calls (calls_made the_run st) <> [] <->
   exists app result,
     snd (the_silent_part st) = inr (app, result) /\ no_result_or_50173 result) /\
  (forall app result,
     snd (the_silent_part st) = inr (app, result) -> no_result_or_50173 result ->
     interactive_calls (calls_made the_run st)
     = [acquire_token_interactive app scopes tenantID]) /\
  (forall st1 st2 app account others result,
     cache_phase env clientID (resolve_authority tenantID authority) token_location
       username verbose st = (st1, inr (app, PList (account :: others))) ->
     silent_step env scopes username app (PList (account :: others)) verbose st1
       = (st2, inr result) ->
     success_response result ->
     interactive_calls (calls_made the_run st) = []).
Proof.
  unfold the_run. split; [apply run_appends|].
  rewrite run_interactive_calls. fold the_silent_part.
  split; [|split].
  - unfold due_interactive.
    destruct (snd (the_silent_part st)) as [e | [app result]].
    + split; [congruence|]. intros (a & r & H & _). discriminate H.
    + destruct (needs_interactive result) as [e | [|]] eqn:Hn.
      * split; [congruence|]. intros (a & r & H & Hr).
        injection H as <- <-. apply needs_interactive_iff in Hr. congruence.
      * split; [|discriminate]. intros _. exists app, result.
        split; [reflexivity | apply needs_interactive_iff; exact Hn].
      * split; [congruence|]. intros (a & r & H & Hr).
        injection H as <- <-. apply needs_interactive_iff in Hr. congruence.
  - intros app result Hb Hr. rewrite Hb. unfold due_interactive.
    apply needs_interactive_iff in Hr. rewrite Hr. reflexivity.
  - intros st1 st2 app account others result Hc Hs Hok.
    rewrite (silent_part_split st st1 st2 app _ result Hc Hs).
    unfold due_interactive. cbn [snd].
    rewrite (success_not_needing result Hok). reflexivity.
Qed.

(** C2, amended.  After a silent step that ended with no result or with
    an error response whose code list contains 50173 the interactive
    flow is called exactly once.  After an error response whose code
    list does not contain 50173 it is not called at all, and unless that
    response carries an access token the run fails. *)
Theorem interactive_only_for_50173 (st : State) (app result : pyval) :
  snd (the_silent_part st) = inr (app, result) ->
  (no_result_or_50173 result ->
   interactive_calls (calls_made the_run st)
   = [acquire_token_interactive app scopes tenantID]) /\
  (forall d codes,
     result = PDict d -> dict_get "error_codes" d = Some (PList codes) ->
     ~ In (PInt 50173) codes ->
     interactive_calls (calls_made the_run st) = [] /\
     (dict_get "access_token" d = None ->
      snd (the_run st) = inl (Raise Exception_ "Failed authenticating"))).
Proof.
  intros Hb. unfold the_run. rewrite run_interactive_calls. fold the_silent_part.
  rewrite Hb. unfold due_interactive. split.
  - intros Hr. apply needs_interactive_iff in Hr. rewrite Hr. reflexivity.
  - intros d codes -> Hget Hnot.
    pose proof (needs_interactive_other_code d codes Hget Hnot) as Hn.
    rewrite Hn. split; [reflexivity|]. intros Hnone.
    destruct (the_silent_part st) as [st1 r] eqn:Hs. cbn [snd] in Hb. subst r.
    unfold the_run.
    rewrite (run_without_interactive env tenantID clientID scopes username
               token_location authority verbose st st1 app (PDict d) Hs Hn).
    rewrite finish_verdict. unfold usable, dict_has. rewrite Hnone.
    rewrite andb_false_r. reflexivity.
Qed.

Lemma usable_iff (result : pyval) : usable result = true <-> usable_response result.
Proof.
  unfold usable, usable_response, dict_has.
  destruct result as [| b | z | s | l | d | n];
    try (rewrite ?andb_false_r; split; [discriminate | intros (d' & t & H & _); discriminate H]).
  destruct (dict_get "access_token" d) as [t|] eqn:Hget.
  - split.
    + intros H. apply andb_true_iff in H. destruct H as [_ H]. cbn in H.
      exists d, t. auto.
    + intros (d' & t' & Hd & Ht & Htr). injection Hd as <-.
      rewrite Hget in Ht. injection Ht as <-. rewrite Htr.
      destruct d; [discriminate Hget | reflexivity].
  - rewrite andb_false_r. split; [discriminate|].
    intros (d' & t' & Hd & Ht & _). injection Hd as <-. congruence.
Qed.

Lemma run_after_acquire (st st1 : State) (result : pyval) :
  acquire env tenantID clientID scopes username token_location authority verbose st
    = (st1, inr result) ->
  the_run st = finish env result verbose st1.
Proof.
  intros Ha. unfold the_run, get_auth, bind. rewrite Ha. reflexivity.
Qed.

(** The verdict on a completed acquisition.  Once the acquisition
    steps have left their final result, get_auth returns a carrier
    exactly when that result is a dict with a non-empty (truthy)
    access_token; the carrier is built from that token, and wraps
    exactly the token when it is a string.  With any other final result
    the call raises Exception("Failed authenticating"), the error the
    specification names AuthenticationError. *)
Lemma get_auth_verdict (st st1 : State) (result : pyval) :
  acquire env tenantID clientID scopes username token_location authority verbose st
    = (st1, inr result) ->
  ((exists carrier, snd (the_run st) = inr carrier) <-> usable_response result) /\
  (forall d t,
     result = PDict d -> dict_get "access_token" d = Some t -> truthy t = true ->
     snd (the_run st) = inr (BearerAuth__init__ t)) /\
  (forall d s,
     result = PDict d -> dict_get "access_token" d = Some (PStr s) -> s <> "" ->
     snd (the_run st) = inr {| token := PStr s |}) /\
  (~ usable_response result ->
   snd (the_run st) = inl (Raise Exception_ "Failed authenticating")).
Proof.
  intros Ha. rewrite (run_after_acquire st st1 result Ha), finish_verdict.
  assert (Hyes : forall d t,
    result = PDict d -> dict_get "access_token" d = Some t -> truthy t = true ->
    (if usable result
     then match getitem_key result "access_token" with
          | inr t0 => inr (BearerAuth__init__ t0)
          | inl e => inl e
          end
     else inl (Raise Exception_ "Failed authenticating")) = inr (BearerAuth__init__ t)).
  { intros d t -> Hget Ht.
    assert (Hu : usable (PDict d) = true) by (apply usable_iff; exists d, t; auto).
    rewrite Hu. unfold getitem_key. rewrite Hget. reflexivity. }
  split; [|split; [|split]].
  - split.
    + intros [carrier H]. apply usable_iff.
      destruct (usable result); [reflexivity | discriminate H].
    + intros (d & t & Hd & Hget & Ht). exists (BearerAuth__init__ t).
      apply (Hyes d t Hd Hget Ht).
  - exact Hyes.
  - intros d s Hd Hget Hs.
    apply (Hyes d (PStr s) Hd Hget). apply str_truthy_iff. exact Hs.
  - intros Hno. destruct (usable result) eqn:Hu; [|reflexivity].
    apply usable_iff in Hu. contradiction.
Qed.

(** C4, amended.  get_auth returns a carrier if and only if its
    acquisition steps complete without raising and their final result
    is a dict with a non-empty (truthy) access_token; the carrier is
    built from that token and wraps exactly the token when it is a
    string.  When the steps complete with any other final result the
    call raises Exception("Failed authenticating").  When a step
    raises, that error reaches the caller as it is, with nothing
    further done. *)
Theorem get_auth_outcome (st : State) :
  (forall st1 e,
     acquire env tenantID clientID scopes username token_location authority verbose st
       = (st1, inl e) ->
     the_run st = (st1, inl e)) /\
  (forall st1 result,
     acquire env tenantID clientID scopes username token_location authority verbose st
       = (st1, inr result) ->
     ((exists carrier, snd (the_run st) = inr carrier) <-> usable_response result) /\
     (forall d t,
        result = PDict d -> dict_get "access_token" d = Some t -> truthy t = true ->
        snd (the_run st) = inr (BearerAuth__init__ t)) /\
     (forall d s,
        result = PDict d -> dict_get "access_token" d = Some (PStr s) -> s <> "" ->
        snd (the_run st) = inr {| token := PStr s |}) /\
     (~ usable_response result ->
      snd (the_run st) = inl (Raise Exception_ "Failed authenticating"))) /\
  ((exists carrier, snd (the_run st) = inr carrier) <->
   exists st1 result,
     acquire env tenantID clientID scopes username token_location authority verbose st
       = (st1, inr result) /\
     usable_response result).
Proof.
  assert (Hraise : forall st1 e,
    acquire env tenantID clientID scopes username token_location authority verbose st
      = (st1, inl e) ->
    the_run st = (st1, inl e)).
  { intros st1 e Ha. unfold the_run, get_auth, bind. rewrite Ha. reflexivity. }
  split; [exact Hraise|]. split; [exact (get_auth_verdict st)|].
  destruct (acquire env tenantID clientID scopes username token_location authority
              verbose st) as [st1 [e|result]] eqn:Ha.
  - rewrite (Hraise st1 e eq_refl). split.
    + intros [carrier H]. discriminate H.
    + intros (st1' & result & H & _). discriminate H.
  - destruct (get_auth_verdict st st1 result Ha) as [Hiff _]. split.
    + intros Hc. exists st1, result. split; [reflexivity | apply Hiff; exact Hc].
    + intros (st1' & result' & H & Hu). injection H as <- <-. apply Hiff. exact Hu.
Qed.

Lemma delete_cache_file_calls (st : State) :
  calls_made (delete_cache_file env verbose) st
  = os_path_isfile (_token_location st) ::
    match respond env (history st) (os_path_isfile (_token_location st)) with
    | inr v =>
        if truthy v then
          ((if verbose
            then [print ("Failed getting accounts from app with cache. Attempts to delete cache-file at "
                         ++ _token_location st)]
            else []) ++ [os_remove (_token_location st)])%list
        else []
    | inl _ => []
    end.
Proof.
  clear the_run the_silent_part. apply calls_made_unique.
  unfold delete_cache_file, bind, get_token_location, call. cbn [fst snd].
  destruct (respond env (history st) (os_path_isfile (_token_location st))) as [e|v];
    [reflexivity|].
  destruct (truthy v); [|reflexivity].
  destruct verbose;
    unfold when, bind, do_print, call, record, ret;
    cbn [fst snd history _token_location List.app];
    match goal with
    | |- context [respond env ?h (os_remove ?l)] => destruct (respond env h (os_remove l))
    end;
    cbn [fst snd history _token_location List.app]; rewrite <- ?app_assoc; reflexivity.
Qed.

Lemma run_cache_failure (st st3 : State) (e : exn) :
  cache_phase env clientID (resolve_authority tenantID authority) token_location
    username verbose st = (st3, inl e) ->
  the_run st = (st3, inl e).
Proof.
  intros Hc. unfold the_run, get_auth, acquire, up_to_silent, bind.
  rewrite Hc. reflexivity.
Qed.

(** C3, amended.  If the first attempt to open the cache and list the
    accounts raises an error derived from Exception, get_auth asks
    whether the global token location is a file and, if so, removes it.
    If that deletion step raises, its error reaches the caller and no
    second attempt is made.  Otherwise exactly one second attempt is
    made, and its outcome is the outcome of the cache phase: an error of
    the second attempt reaches the caller as it is, with nothing further
    done. *)
Theorem cache_failure_retried_once (st st1 : State) (e1 : exn) :
  open_and_list env clientID (resolve_authority tenantID authority)
    (effective_location token_location st) username st = (st1, inl e1) ->
  is_Exception e1 = true ->
  (exists others,
     calls_made (delete_cache_file env verbose) st1
     = os_path_isfile (_token_location st1) :: others) /\
  (forall v,
     respond env (history st1) (os_path_isfile (_token_location st1)) = inr v ->
     (truthy v = true ->
      In (os_remove (_token_location st1))
         (calls_made (delete_cache_file env verbose) st1)) /\
     (truthy v = false ->
      calls_made (delete_cache_file env verbose) st1
      = [os_path_isfile (_token_location st1)])) /\
  (forall st2 e,
     delete_cache_file env verbose st1 = (st2, inl e) -> the_run st = (st2, inl e)) /\
  (forall st2,
     delete_cache_file env verbose st1 = (st2, inr tt) ->
     cache_phase env clientID (resolve_authority tenantID authority) token_location
       username verbose st
     = open_and_list env clientID (resolve_authority tenantID authority)
         (effective_location token_location st) username st2 /\
     forall st3 e2,
       open_and_list env clientID (resolve_authority tenantID authority)
         (effective_location token_location st) username st2 = (st3, inl e2) ->
       the_run st = (st3, inl e2)).
Proof.
  intros H1 He1.
  assert (Hphase :
    cache_phase env clientID (resolve_authority tenantID authority) token_location
      username verbose st
    = recover env clientID (resolve_authority tenantID authority)
        (effective_location token_location st) username verbose st1).
  { unfold cache_phase, try_except_Exception. cbv zeta. rewrite H1, He1. reflexivity. }
  rewrite delete_cache_file_calls.
  split; [eexists; reflexivity|]. split; [|split].
  - intros v Hv. rewrite Hv. split; intros Ht; rewrite Ht.
    + right. apply in_or_app. right. left. reflexivity.
    + reflexivity.
  - intros st2 e Hd. apply run_cache_failure.
    rewrite Hphase. unfold recover, bind. rewrite Hd. reflexivity.
  - intros st2 Hd.
    assert (Hretry :
      cache_phase env clientID (resolve_authority tenantID authority) token_location
        username verbose st
      = open_and_list env clientID (resolve_authority tenantID authority)
          (effective_location token_location st) username st2).
    { rewrite Hphase. unfold recover, bind. rewrite Hd. reflexivity. }
    split; [exact Hretry|].
    intros st3 e2 H2. apply run_cache_failure. rewrite Hretry. exact H2.
Qed.

End GetAuthClaims.

(** ** get_auth on scripted providers *)

(** The cache cannot be read: listing the accounts always raises. *)
Definition provider_corrupt_cache : Env :=
  scripted (fun _ c =>
    match c with
    | get_accounts _ _ => inl (Raise (LibraryError "PersistenceDecryptionError") "corrupt")
    | os_path_isfile _ => inr (PBool true)
    | _ => inr (PObj 0)
    end).

Definition invalid_grant_response : pyval :=
  PDict [("error", PStr "invalid_grant"); ("error_codes", PList [PInt 70000])].

Lemma interactive_exactly_when_needed_witness :
  interactive_calls
    (calls_made
       (bearerauth.get_auth provider_empty_cache "T" "C" ["S"] (PStr "") (PStr "") (PStr "") false)
       fresh)
  = [acquire_token_interactive (PObj 0) ["S"] "T"].
Proof.
  destruct (interactive_exactly_when_needed provider_empty_cache "T" "C" ["S"]
              (PStr "") (PStr "") (PStr "") false fresh) as (_ & _ & H & _).
  apply (H (PObj 0) PNone).
  - vm_compute. reflexivity.
  - left. reflexivity.
Defined.

(** C2 fails as stated: after an error response with code 70000 the
    interactive flow is not called, although it would have succeeded;
    the call fails instead. *)
Lemma other_error_code_no_interactive :
  snd (bearerauth.up_to_silent provider_invalid_grant "C" ["S"] (PStr "") (PStr "")
         (bearerauth.resolve_authority "T" (PStr "")) false fresh)
  = inr (PObj 0, invalid_grant_response) /\
  interactive_calls
    (calls_made
       (bearerauth.get_auth provider_invalid_grant "T" "C" ["S"] (PStr "") (PStr "") (PStr "") false)
       fresh) = [] /\
  List.length
    (interactive_calls
       (calls_made
          (bearerauth.get_auth provider_invalid_grant "T" "C" ["S"] (PStr "") (PStr "") (PStr "") false)
          fresh)) <> 1 /\
  snd (bearerauth.get_auth provider_invalid_grant "T" "C" ["S"] (PStr "") (PStr "") (PStr "") false fresh)
  = inl (Raise Exception_ "Failed authenticating").
Proof.
  repeat split. vm_compute. discriminate.
Qed.

Lemma interactive_only_for_50173_witness :
  interactive_calls
    (calls_made
       (bearerauth.get_auth provider_invalid_grant "T" "C" ["S"] (PStr "") (PStr "") (PStr "") false)
       fresh) = [] /\
  snd (bearerauth.get_auth provider_invalid_grant "T" "C" ["S"] (PStr "") (PStr "") (PStr "") false fresh)
  = inl (Raise Exception_ "Failed authenticating").
Proof.
  assert (Hb : snd (bearerauth.up_to_silent provider_invalid_grant "C" ["S"] (PStr "") (PStr "")
         (bearerauth.resolve_authority "T" (PStr "")) false fresh)
               = inr (PObj 0, invalid_grant_response)) by (vm_compute; reflexivity).
  destruct (interactive_only_for_50173 provider_invalid_grant "T" "C" ["S"]
              (PStr "") (PStr "") (PStr "") false fresh (PObj 0) invalid_grant_response Hb)
    as [_ H].
  destruct (H [("error", PStr "invalid_grant"); ("error_codes", PList [PInt 70000])]
              [PInt 70000] eq_refl eq_refl) as [H0 H1].
  - intros [E | []]. discriminate E.
  - split; [exact H0 | apply H1; reflexivity].
Defined.

(** C3 fails as stated.  A token location that set_token_location
    rejects makes both attempts raise ValueError: the file removed in
    between is the one at the old global location, and the caller gets
    the ValueError, not Exception("Failed authenticating").  A cache that
    stays unreadable hands the caller the library's own error. *)
Lemma second_failure_keeps_its_class :
  snd (bearerauth.get_auth provider_cached_token "T" "C" ["S"] (PStr "") (PStr "abc") (PStr "") false fresh)
  = inl (Raise ValueError "Invalid location string abc") /\
  calls_made
    (bearerauth.get_auth provider_cached_token "T" "C" ["S"] (PStr "") (PStr "abc") (PStr "") false) fresh
  = [os_path_isfile "token_cache.bin"; os_remove "token_cache.bin"] /\
  snd (bearerauth.get_auth provider_cached_token "T" "C" ["S"] (PStr "") (PStr "abc") (PStr "") false fresh)
  <> inl (Raise Exception_ "Failed authenticating") /\
  snd (bearerauth.get_auth provider_corrupt_cache "T" "C" ["S"] (PStr "") (PStr "") (PStr "") false fresh)
  = inl (Raise (LibraryError "PersistenceDecryptionError") "corrupt") /\
  snd (bearerauth.get_auth provider_corrupt_cache "T" "C" ["S"] (PStr "") (PStr "") (PStr "") false fresh)
  <> inl (Raise Exception_ "Failed authenticating").
Proof.
  repeat split; try (vm_compute; discriminate).
Qed.

Lemma cache_failure_retried_once_witness :
  snd (bearerauth.get_auth provider_corrupt_cache "T" "C" ["S"] (PStr "") (PStr "") (PStr "") false fresh)
  = inl (Raise (LibraryError "PersistenceDecryptionError") "corrupt").
Proof.
  edestruct (cache_failure_retried_once provider_corrupt_cache "T" "C" ["S"]
               (PStr "") (PStr "") (PStr "") false fresh) as (_ & _ & _ & H).
  - vm_compute. reflexivity.
  - reflexivity.
  - edestruct H as [_ H3].
    + vm_compute. reflexivity.
    + erewrite H3; [reflexivity | vm_compute; reflexivity].
Defined.

(** The cache is empty and the interactive flow is abandoned: the
    provider's call raises. *)
Definition provider_interactive_raises : Env :=
  scripted (fun _ c =>
    match c with
    | get_accounts _ _ => inr (PList [])
    | acquire_token_interactive _ _ _ =>
        inl (Raise (LibraryError "BrowserInteractionTimeoutError") "timed out")
    | os_path_isfile _ => inr (PBool false)
    | _ => inr (PObj 0)
    end).

(** C4 fails as stated: when the interactive call raises, get_auth
    returns no carrier and yet does not raise
    Exception("Failed authenticating"); the caller gets the provider's
    error. *)
Lemma raising_step_keeps_its_error :
  snd (bearerauth.get_auth provider_interactive_raises "T" "C" ["S"] (PStr "") (PStr "")
         (PStr "") false fresh)
  = inl (Raise (LibraryError "BrowserInteractionTimeoutError") "timed out") /\
  (forall carrier,
     snd (bearerauth.get_auth provider_interactive_raises "T" "C" ["S"] (PStr "")
            (PStr "") (PStr "") false fresh) <> inr carrier) /\
  snd (bearerauth.get_auth provider_interactive_raises "T" "C" ["S"] (PStr "") (PStr "")
         (PStr "") false fresh)
  <> inl (Raise Exception_ "Failed authenticating").
Proof.
  split; [reflexivity|]. split.
  - intros carrier. vm_compute. discriminate.
  - vm_compute. discriminate.
Qed.

Lemma get_auth_outcome_witness :
  snd (bearerauth.get_auth provider_empty_cache "T" "C" ["S"] (PStr "") (PStr "")
         (PStr "") false fresh)
  = inr {| bearerauth.token := PStr "XYZ" |} /\
  snd (bearerauth.get_auth provider_interactive_raises "T" "C" ["S"] (PStr "") (PStr "")
         (PStr "") false fresh)
  = inl (Raise (LibraryError "BrowserInteractionTimeoutError") "timed out").
Proof.
  split.
  - edestruct (get_auth_outcome provider_empty_cache "T" "C" ["S"]
                 (PStr "") (PStr "") (PStr "") false fresh) as (_ & H & _).
    edestruct H as (_ & _ & H' & _).
    + vm_compute. reflexivity.
    + apply (H' [("access_token", PStr "XYZ")] "XYZ");
        [reflexivity | reflexivity | discriminate].
  - edestruct (get_auth_outcome provider_interactive_raises "T" "C" ["S"]
                 (PStr "") (PStr "") (PStr "") false fresh) as (H & _).
    erewrite H; [reflexivity | vm_compute; reflexivity].
Defined.

(** The scenario of the specification: empty cache, interactive flow
    returns ["XYZ"]; the header the carrier sets is ["Bearer XYZ"]. *)
Example empty_cache_scenario :
  match snd (bearerauth.get_auth provider_empty_cache "T" "C" ["S"] (PStr "") (PStr "") (PStr "") false fresh) with
  | inr carrier => bearerauth.authorization_header carrier = inr "Bearer XYZ"
  | inl _ => False
  end.
Proof. vm_compute. reflexivity. Qed.

(** ** Authenticator.get_token *)

Section AuthenticatorCalls.

Import Authenticator.

Variable env : Env.

Lemma client_secret_exchange_confidential (self : Authenticator) (secret : string)
  (scopes : list string) :
  emits (fun c => strategy_of c = Confidential)
    (client_secret_exchange env self secret scopes).
Proof.
  unfold client_secret_exchange. emits_tac; reflexivity.
Qed.

Lemma get_az_token_ambient (self : Authenticator) (scope : scope_arg) :
  emits (fun c => strategy_of c = Ambient) (get_az_token env self scope).
Proof.
  unfold get_az_token. emits_tac; reflexivity.
Qed.

Lemma get_public_app_token_public (self : Authenticator) (username : option string)
  (scope : option scope_arg) :
  emits (fun c => strategy_of c = PublicClient)
    (get_public_app_token env self username scope).
Proof.
  unfold get_public_app_token.
  destruct (if negb (opt_truthy username) then _ else _) as [self' username'].
  emits_tac. apply get_auth_public.
Qed.

Lemma get_scope_with_client_id (self : Authenticator) :
  opt_truthy (client_id self) = true -> exists sc, get_scope self = inr sc.
Proof.
  intros Hc. unfold get_scope, get_client_id.
  destruct (List.length (scopes self) =? 0)%nat; [|eauto].
  destruct (client_id self) as [cid|]; [|discriminate Hc].
  cbn in Hc. unfold str_truthy. rewrite Hc. eauto.
Qed.

Lemma get_client_id_inr (self : Authenticator) (cid : string) :
  get_client_id self = inr cid <-> client_id self = Some cid /\ cid <> "".
Proof.
  unfold get_client_id, str_truthy.
  destruct (client_id self) as [s|]; [|split; [discriminate | intros [H _]; discriminate H]].
  destruct s as [|a s]; cbn.
  - split; [discriminate|]. intros [H Hne]. injection H as <-. contradiction.
  - split.
    + intros H. injection H as <-. split; [reflexivity | discriminate].
    + intros [H _]. injection H as <-. reflexivity.
Qed.

Lemma get_tenant_id_inr (self : Authenticator) (tid : string) :
  get_tenant_id self = inr tid <-> tenant_id self = Some tid /\ tid <> "".
Proof.
  unfold get_tenant_id, str_truthy.
  destruct (tenant_id self) as [s|]; [|split; [discriminate | intros [H _]; discriminate H]].
  destruct s as [|a s]; cbn.
  - split; [discriminate|]. intros [H Hne]. injection H as <-. contradiction.
  - split.
    + intros H. injection H as <-. split; [reflexivity | discriminate].
    + intros [H _]. injection H as <-. reflexivity.
Qed.

(** The scopes get_token works with: the argument, or get_scope(). *)
Definition requested_scopes (self : Authenticator) (scopes : option (list string))
  : result (list string) :=
  match scopes with
  | None => get_scope self
  | Some l => inr l
  end.

Definition authority_of (tid : string) : string :=
  "https://login.microsoftonline.com/" ++ tid.

(** The two provider calls of the confidential-client branch, and the
    state after them. *)
Lemma client_secret_exchange_run (self : Authenticator) (secret cid tid : string)
  (sc : list string) (c : pyval) (st : State) :
  get_client_id self = inr cid ->
  get_tenant_id self = inr tid ->
  respond env (history st) (ConfidentialClientApplication cid secret (authority_of tid))
    = inr c ->
  let st2 := record (acquire_token_for_client c sc)
               (record (ConfidentialClientApplication cid secret (authority_of tid)) st) in
  fst (client_secret_exchange env self secret sc st) = st2 /\
  forall d,
    respond env (history st ++ [ConfidentialClientApplication cid secret (authority_of tid)])
      (acquire_token_for_client c sc) = inr d ->
    snd (client_secret_exchange env self secret sc st)
    = if is_none d then inl (Raise ValueError "Could not get token.")
      else match key_in "access_token" d with
           | inl e => inl e
           | inr true => getitem_key d "access_token"
           | inr false =>
               match key_in "error_description" d with
               | inl e => inl e
               | inr has_descr =>
                   match (if has_descr then dot_get d "error_description"
                          else dot_get d "error") with
                   | inl e => inl e
                   | inr detail =>
                       inl (Raise ValueError ("Could not get token: " ++ py_str env detail))
                   end
               end
           end.
Proof.
  intros Hcid Htid Hc. cbv zeta.
  unfold client_secret_exchange, bind, lift, call. rewrite Hcid, Htid.
  fold (authority_of tid). rewrite Hc. cbn [history record].
  destruct (respond env _ (acquire_token_for_client c sc)) as [e|d] eqn:Hd.
  - split; [reflexivity|]. intros d H. discriminate H.
  - assert (Hst : forall st',
      fst ((if is_none d then raise (Raise ValueError "Could not get token.")
            else
              has <- lift (key_in "access_token" d) ;;
              if negb has then
                has_descr <- lift (key_in "error_description" d) ;;
                detail <- lift (if has_descr then dot_get d "error_description"
                                else dot_get d "error") ;;
                raise (Raise ValueError ("Could not get token: " ++ py_str env detail))
              else lift (getitem_key d "access_token")) st') = st').
    { intros st'. destruct (is_none d); [reflexivity|].
      unfold bind, lift, raise.
      destruct (key_in "access_token" d) as [e|[|]]; try reflexivity.
      cbn [negb].
      destruct (key_in "error_description" d) as [e|[|]]; try reflexivity.
      - destruct (dot_get d "error_description"); reflexivity.
      - destruct (dot_get d "error"); reflexivity. }
    split.
    + apply Hst.
    + intros d' H. injection H as <-.
      destruct (is_none d); [reflexivity|].
      unfold bind, lift, raise.
      destruct (key_in "access_token" d) as [e|[|]]; try reflexivity.
      cbn [negb].
      destruct (key_in "error_description" d) as [e|[|]]; try reflexivity.
      * destruct (dot_get d "error_description"); reflexivity.
      * destruct (dot_get d "error"); reflexivity.
Qed.

Lemma get_token_preset (self : Authenticator) (scopes : option (list string)) (st : State) :
  token self <> "" ->
  get_token env self scopes st = (st, inr (self, PStr (token self))).
Proof.
  intros Ht. unfold get_token, str_truthy.
  destruct (token self); [contradiction|reflexivity].
Qed.

Lemma get_token_not_preset (self : Authenticator) (scopes : option (list string)) :
  token self = "" ->
  get_token env self scopes
  = (sc <- lift (requested_scopes self scopes) ;;
     if opt_truthy (client_secret self) then
       t <- client_secret_exchange env self (opt_value (client_secret self)) sc ;;
       ret (self, t)
     else if opt_truthy (client_id self) then get_public_app_token env self None None
     else
       sc' <- lift (get_scope self) ;;
       t <- get_az_token env self (ScopeList sc') ;;
       ret (self, t)).
Proof.
  intros Ht. unfold get_token, str_truthy, requested_scopes. rewrite Ht. cbn.
  destruct scopes; reflexivity.
Qed.

End AuthenticatorCalls.

(** ** Authenticator.get_token: the claims *)

(** A run of calls to get_token on one instance, each call with its
    own provider (the network may come and go) and its own argument.
    The instance and the state are threaded through; a call that raises
    leaves the instance as it was. *)
Fixpoint get_token_calls (calls : list (Env * option (list string)))
  (self : Authenticator.Authenticator) (st : State)
  : State * Authenticator.Authenticator * list (result pyval) :=
  match calls with
  | [] => (st, self, [])
  | (env, scopes) :: rest =>
      match Authenticator.get_token env self scopes st with
      | (st', inr (self', t)) =>
          let '(st'', self'', results) := get_token_calls rest self' st' in
          (st'', self'', inr t :: results)
      | (st', inl e) =>
          let '(st'', self'', results) := get_token_calls rest self st' in
          (st'', self'', inl e :: results)
      end
  end.

(** A provider without network: every call raises. *)
Definition provider_offline : Env :=
  scripted (fun _ _ => inl (Raise (LibraryError "ConnectionError") "offline")).

(** A confidential client whose secret the provider rejects. *)
Definition provider_invalid_client : Env :=
  scripted (fun _ c =>
    match c with
    | acquire_token_for_client _ _ => inr (PDict [("error", PStr "invalid_client")])
    | _ => inr (PObj 0)
    end).

(** The ambient credential chain yields the token ["AMBIENT"]. *)
Definition provider_ambient : Env :=
  scripted (fun _ c =>
    match c with
    | credential_get_token _ _ _ => inr (PList [PStr "AMBIENT"; PInt 0])
    | _ => inr (PObj 0)
    end).

Section AuthenticatorClaims.

Import Authenticator.

(** C7.  With a non-empty pre-set token, get_token returns exactly that
    string and leaves the state, the call history included, and the
    instance untouched, whatever the provider, the argument and the
    other attributes are; so does every call of any sequence of calls. *)
Theorem preset_token_always_returned (self : Authenticator) (st : State) :
  token self <> "" ->
  (forall env scopes,
     get_token env self scopes st = (st, inr (self, PStr (token self))) /\
     calls_made (get_token env self scopes) st = []) /\
  (forall calls,
     get_token_calls calls self st
     = (st, self, map (fun _ => inr (PStr (token self))) calls)).
Proof.
  intros Ht. split.
  - intros env scopes. rewrite (get_token_preset env self scopes st Ht).
    split; [reflexivity|].
    apply calls_made_unique. rewrite (get_token_preset env self scopes st Ht).
    cbn. rewrite app_nil_r. reflexivity.
  - induction calls as [|[env scopes] rest IH]; [reflexivity|].
    cbn [get_token_calls map].
    rewrite (get_token_preset env self scopes st Ht), IH. reflexivity.
Qed.

(** What the error message of a failed exchange quotes: the
    error_description if the response has one, else its error. *)
Definition error_detail (d : list (string * pyval)) : pyval :=
  match dict_get "error_description" d with
  | Some v => v
  | None => match dict_get "error" d with
            | Some v => v
            | None => PNone
            end
  end.

(** C6.  With no pre-set token, a client secret, a client id and a
    tenant id, get_token performs the exchange; a response that is a
    dict with an access_token makes it return exactly that value, and a
    dict without one makes it raise ValueError (the class of the
    configuration errors) whose message quotes the provider's
    error_description, or its error when no description is given. *)
Theorem client_secret_exchange_outcome (env : Env) (self : Authenticator)
  (scopes : option (list string)) (st : State)
  (secret cid tid : string) (sc : list string) (c : pyval)
  (d : list (string * pyval)) :
  token self = "" ->
  client_secret self = Some secret -> secret <> "" ->
  client_id self = Some cid -> cid <> "" ->
  tenant_id self = Some tid -> tid <> "" ->
  requested_scopes self scopes = inr sc ->
  respond env (history st) (ConfidentialClientApplication cid secret (authority_of tid))
    = inr c ->
  respond env (history st ++ [ConfidentialClientApplication cid secret (authority_of tid)])
    (acquire_token_for_client c sc) = inr (PDict d) ->
  (forall t, dict_get "access_token" d = Some t ->
     snd (get_token env self scopes st) = inr (self, t)) /\
  (dict_get "access_token" d = None ->
   snd (get_token env self scopes st)
   = inl (Raise ValueError ("Could not get token: " ++ py_str env (error_detail d)))) /\
  (forall s, dict_get "access_token" d = None ->
     dict_get "error_description" d = Some (PStr s) ->
     snd (get_token env self scopes st)
     = inl (Raise ValueError ("Could not get token: " ++ s))).
Proof.
  intros Ht Hsec Hsne Hcid Hcne Htid Htne Hsc Hc Hd.
  assert (Hgc : get_client_id self = inr cid) by (apply get_client_id_inr; auto).
  assert (Hgt : get_tenant_id self = inr tid) by (apply get_tenant_id_inr; auto).
  destruct (client_secret_exchange_run env self secret cid tid sc c st Hgc Hgt Hc)
    as [_ Hx].
  specialize (Hx (PDict d) Hd).
  assert (Hrun : snd (get_token env self scopes st)
                 = match snd (client_secret_exchange env self secret sc st) with
                   | inr t => inr (self, t)
                   | inl e => inl e
                   end).
  { rewrite (get_token_not_preset env self scopes Ht).
    unfold bind at 1. unfold lift at 1. rewrite Hsc.
    rewrite Hsec. cbn [opt_truthy opt_value].
    destruct secret as [|a secret]; [contradiction|]. cbn [String.length Nat.eqb negb].
    unfold bind at 1.
    destruct (client_secret_exchange env self (String a secret) sc st) as [st' [e|t]];
      reflexivity. }
  rewrite Hrun, Hx. cbn [is_none key_in getitem_key dot_get]. unfold dict_has.
  split; [|split].
  - intros t Hget. rewrite Hget. reflexivity.
  - intros Hnone. rewrite Hnone. unfold error_detail.
    destruct (dict_get "error_description" d); reflexivity.
  - intros s Hnone Hdescr. rewrite Hnone, Hdescr. reflexivity.
Qed.

Lemma fst_bind_ret {A B} (m : M A) (f : A -> B) (st : State) :
  fst (bind m (fun a => ret (f a)) st) = fst (m st) /\
  snd (bind m (fun a => ret (f a)) st)
  = match snd (m st) with inr a => inr (f a) | inl e => inl e end.
Proof.
  unfold bind, ret. destruct (m st) as [st' [e|a]]; split; reflexivity.
Qed.

Lemma get_token_any (env : Env) (self : Authenticator) (scopes : option (list string)) :
  emits (fun _ => True) (get_token env self scopes).
Proof.
  unfold get_token. emits_tac;
    (eapply emits_weaken;
     [ intros c _; exact I
     | first [ apply client_secret_exchange_confidential
             | apply get_public_app_token_public
             | apply get_az_token_ambient ] ]).
Qed.

(** C5.  get_token takes the first strategy that matches and makes the
    calls of that strategy only.  A pre-set token is returned without
    any call.  Else, with a client secret, every call made is a
    confidential-client call, the outcome is that of the exchange
    alone, and with client id and tenant id set the calls are the
    application constructor and the exchange for the requested scopes.  Else, with a client id, get_token is
    get_public_app_token, every call made is a public-client call, and
    with a tenant id the run is get_auth's.  Else every call made is an
    ambient-credential call, and with a configured scope list and a
    tenant id the lookup is made for the first scope of the list with
    the tenant id as hint, its first component being the token. *)
Theorem strategy_first_match (env : Env) (self : Authenticator)
  (scopes : option (list string)) (st : State) :
  history (fst (get_token env self scopes st))
  = (history st ++ calls_made (get_token env self scopes) st)%list /\
  (token self <> "" ->
   get_token env self scopes st = (st, inr (self, PStr (token self))) /\
   calls_made (get_token env self scopes) st = []) /\
  (token self = "" -> opt_truthy (client_secret self) = true ->
   Forall (fun c => strategy_of c = Confidential)
     (calls_made (get_token env self scopes) st) /\
   (forall sc,
      requested_scopes self scopes = inr sc ->
      snd (get_token env self scopes st)
      = match snd (client_secret_exchange env self (opt_value (client_secret self))
                     sc st) with
        | inr t => inr (self, t)
        | inl e => inl e
        end) /\
   forall cid tid sc c,
     get_client_id self = inr cid -> get_tenant_id self = inr tid ->
     requested_scopes self scopes = inr sc ->
     respond env (history st)
       (ConfidentialClientApplication cid (opt_value (client_secret self))
          (authority_of tid)) = inr c ->
     calls_made (get_token env self scopes) st
     = [ConfidentialClientApplication cid (opt_value (client_secret self))
          (authority_of tid);
        acquire_token_for_client c sc]) /\
  (token self = "" -> opt_truthy (client_secret self) = false ->
   opt_truthy (client_id self) = true ->
   Forall (fun c => strategy_of c = PublicClient)
     (calls_made (get_token env self scopes) st) /\
   get_token env self scopes st = get_public_app_token env self None None st /\
   forall tid cid sc,
     get_tenant_id self = inr tid -> get_client_id self = inr cid ->
     get_scope self = inr sc ->
     get_token env self scopes st
     = (auth <- bearerauth.get_auth env tid cid sc (PStr (upper env (user_name self)))
                  (PStr "") (PStr "") false ;;
        ret (self, bearerauth.token auth)) st) /\
  (token self = "" -> opt_truthy (client_secret self) = false ->
   opt_truthy (client_id self) = false ->
   Forall (fun c => strategy_of c = Ambient)
     (calls_made (get_token env self scopes) st) /\
   forall scope0 others tid credential,
     Authenticator.scopes self = scope0 :: others ->
     get_tenant_id self = inr tid ->
     respond env (history st) DefaultAzureCredential = inr credential ->
     calls_made (get_token env self scopes) st
     = [DefaultAzureCredential; credential_get_token credential scope0 tid] /\
     snd (get_token env self scopes st)
     = match respond env (history st ++ [DefaultAzureCredential])
               (credential_get_token credential scope0 tid) with
       | inr tok => match getitem_0 tok with
                    | inr t => inr (self, t)
                    | inl e => inl e
                    end
       | inl e => inl e
       end).
Proof.
  split; [apply (emits_calls_made (fun _ => True)), get_token_any|].
  split; [|split; [|split]].
  - intros Ht. rewrite (get_token_preset env self scopes st Ht).
    split; [reflexivity|]. apply calls_made_unique.
    rewrite (get_token_preset env self scopes st Ht). cbn.
    rewrite app_nil_r. reflexivity.
  - intros Ht Hsec. rewrite (get_token_not_preset env self scopes Ht), Hsec.
    split; [|split].
    + apply emits_calls_made. emits_tac. apply client_secret_exchange_confidential.
    + intros sc Hsc. unfold bind at 1. unfold lift at 1. rewrite Hsc.
      apply (fst_bind_ret
               (client_secret_exchange env self (opt_value (client_secret self)) sc)
               (fun t => (self, t)) st).
    + intros cid tid sc c Hcid Htid Hsc Hc. apply calls_made_unique.
      unfold bind at 1. unfold lift at 1. rewrite Hsc.
      destruct (fst_bind_ret
                  (client_secret_exchange env self (opt_value (client_secret self)) sc)
                  (fun t => (self, t)) st) as [Hfst _].
      rewrite Hfst.
      destruct (client_secret_exchange_run env self (opt_value (client_secret self))
                  cid tid sc c st Hcid Htid Hc) as [Hst _].
      rewrite Hst. cbn. rewrite <- app_assoc. reflexivity.
  - intros Ht Hsec Hcid.
    destruct (get_scope_with_client_id self Hcid) as [sc0 Hsc0].
    assert (Heq : get_token env self scopes st
                  = get_public_app_token env self None None st).
    { rewrite (get_token_not_preset env self scopes Ht), Hsec, Hcid.
      unfold bind at 1. unfold lift at 1, requested_scopes.
      destruct scopes; [reflexivity|]. rewrite Hsc0. reflexivity. }
    split; [|split].
    + unfold calls_made. rewrite Heq.
      apply (emits_calls_made _ (get_public_app_token env self None None)).
      apply get_public_app_token_public.
    + exact Heq.
    + intros tid cid sc Htid Hgc Hsc. rewrite Heq.
      unfold get_public_app_token. cbn [opt_truthy negb].
      unfold bind at 1. unfold lift at 1. rewrite Htid.
      unfold bind at 1. unfold lift at 1. rewrite Hgc.
      unfold bind at 1. unfold lift at 1. rewrite Hsc. reflexivity.
  - intros Ht Hsec Hcid. rewrite (get_token_not_preset env self scopes Ht), Hsec, Hcid.
    split.
    + apply emits_calls_made. emits_tac. apply get_az_token_ambient.
    + intros scope0 others tid credential Hscopes Htid Hcred.
      assert (Hgs : get_scope self = inr (scope0 :: others)).
      { unfold get_scope. rewrite Hscopes. reflexivity. }
      assert (Hrs : requested_scopes self scopes
                    = inr (match scopes with Some l => l | None => scope0 :: others end)).
      { unfold requested_scopes. destruct scopes; [reflexivity | exact Hgs]. }
      split.
      * apply calls_made_unique.
        unfold get_az_token; unfold bind, lift, call, ret.
        rewrite Hrs, Hgs. cbn [history record fst snd]. rewrite Hcred, Htid.
        cbn [history record fst snd].
        destruct (respond env _ (credential_get_token credential scope0 tid)) as [e|tok];
          [|destruct (getitem_0 tok)]; cbn; rewrite <- app_assoc; reflexivity.
      * unfold get_az_token; unfold bind, lift, call, ret.
        rewrite Hrs, Hgs. cbn [history record fst snd]. rewrite Hcred, Htid.
        cbn [history record fst snd].
        destruct (respond env _ (credential_get_token credential scope0 tid)) as [e|tok];
          [|destruct (getitem_0 tok)]; reflexivity.
Qed.

End AuthenticatorClaims.

(** ** Authenticator.get_token on scripted providers *)

Definition confidential_client : Authenticator.Authenticator :=
  Authenticator.__init__ (Some "T") (Some "C") (Some "secret") None None
    (Some (Authenticator.ScopeStr "S")).

Definition ambient_client : Authenticator.Authenticator :=
  Authenticator.__init__ (Some "T") None None None None
    (Some (Authenticator.ScopeList ["S"; "S2"])).

Definition preset_client : Authenticator.Authenticator :=
  Authenticator.set_token confidential_client "XYZ".

Lemma strategy_first_match_witness :
  calls_made (Authenticator.get_token provider_ambient ambient_client None) fresh
  = [DefaultAzureCredential; credential_get_token (PObj 0) "S" "T"] /\
  snd (Authenticator.get_token provider_ambient ambient_client None fresh)
  = inr (ambient_client, PStr "AMBIENT").
Proof.
  destruct (strategy_first_match provider_ambient ambient_client None fresh)
    as (_ & _ & _ & _ & H).
  destruct H as [_ H]; [reflexivity | reflexivity | reflexivity |].
  destruct (H "S" ["S2"] "T" (PObj 0)) as [H1 H2];
    [reflexivity | reflexivity | reflexivity |].
  split; [exact H1 | rewrite H2; reflexivity].
Defined.

Lemma client_secret_exchange_outcome_witness :
  snd (Authenticator.get_token provider_invalid_client confidential_client None fresh)
  = inl (Raise ValueError "Could not get token: invalid_client").
Proof.
  pose proof (client_secret_exchange_outcome provider_invalid_client confidential_client
                None fresh "secret" "C" "T" ["S"] (PObj 0)
                [("error", PStr "invalid_client")]
                eq_refl eq_refl ltac:(discriminate) eq_refl ltac:(discriminate)
                eq_refl ltac:(discriminate) eq_refl eq_refl eq_refl) as (_ & H & _).
  exact (H eq_refl).
Defined.

Lemma preset_token_always_returned_witness :
  get_token_calls
    [(provider_offline, None); (provider_empty_cache, Some ["S"])] preset_client fresh
  = (fresh, preset_client, [inr (PStr "XYZ"); inr (PStr "XYZ")]).
Proof.
  destruct (preset_token_always_returned preset_client fresh) as [_ H].
  - discriminate.
  - apply (H [(provider_offline, None); (provider_empty_cache, Some ["S"])]).
Defined.

(** Without a configured scope and without a client id there is
    nothing to default the scope from: get_scope raises before any
    strategy runs, and no call is made. *)
Example get_token_nothing_configured :
  Authenticator.get_token provider_ambient
    (Authenticator.__init__ (Some "T") None None None None None) None fresh
  = (fresh, inl (Raise ValueError "Client ID is not set")).
Proof. reflexivity. Qed.

(** A public client on an empty cache: get_token hands back what the
    interactive flow returned. *)
Example get_token_public_client :
  snd (Authenticator.get_token provider_empty_cache
         (Authenticator.__init__ (Some "T") (Some "C") None None None
            (Some (Authenticator.ScopeList ["S"]))) None fresh)
  = inr (Authenticator.__init__ (Some "T") (Some "C") None None None
           (Some (Authenticator.ScopeList ["S"])), PStr "XYZ").
Proof. vm_compute. reflexivity. Qed.

(** * Further properties of the two modules *)

(** ** The carrier applied to a request *)

Section CarrierCall.

Import bearerauth.

Lemma dict_get_set_same (k : string) (v : pyval) (d : list (string * pyval)) :
  dict_get k (dict_set k v d) = Some v.
Proof.
  induction d as [|[k' v'] d IH]; cbn.
  - rewrite String.eqb_refl. reflexivity.
  - destruct (String.eqb k k') eqn:E; cbn; rewrite E; [reflexivity | exact IH].
Qed.

Lemma dict_get_set_other (k k' : string) (v : pyval) (d : list (string * pyval)) :
  k' <> k -> dict_get k' (dict_set k v d) = dict_get k' d.
Proof.
  intros Hne. induction d as [|[k0 v0] d IH]; cbn.
  - destruct (String.eqb k' k) eqn:E; [|reflexivity].
    apply String.eqb_eq in E. contradiction.
  - destruct (String.eqb k k0) eqn:E; cbn.
    + apply String.eqb_eq in E. subst k0.
      destruct (String.eqb k' k) eqn:E'; [|reflexivity].
      apply String.eqb_eq in E'. contradiction.
    + rewrite IH. reflexivity.
Qed.

Lemma dict_set_twice (k : string) (v : pyval) (d : list (string * pyval)) :
  dict_set k v (dict_set k v d) = dict_set k v d.
Proof.
  induction d as [|[k' v'] d IH]; cbn.
  - rewrite String.eqb_refl. reflexivity.
  - destruct (String.eqb k k') eqn:E; cbn; rewrite E; [reflexivity|].
    rewrite IH. reflexivity.
Qed.

(** X1.  Applied to a request, a carrier that holds the string [s] sets
    the authorization header to ["Bearer " + s], whether or not the
    request had one, and leaves every other header and the rest of the
    request as they were; applying it a second time changes nothing. *)
Theorem carrier_sets_authorization_header (self : BearerAuth) (r : Request) (s : string) :
  token self = PStr s ->
  exists r',
    BearerAuth__call__ self r = inr r' /\
    dict_get "authorization" (headers r') = Some (PStr ("Bearer " ++ s)) /\
    (forall k, k <> "authorization" ->
       dict_get k (headers r') = dict_get k (headers r)) /\
    payload r' = payload r /\
    BearerAuth__call__ self r' = inr r'.
Proof.
  intros Ht. unfold BearerAuth__call__, authorization_header. rewrite Ht.
  eexists. split; [reflexivity|]. cbn [headers payload].
  split; [apply dict_get_set_same|].
  split; [intros k Hk; apply dict_get_set_other; exact Hk|].
  split; [reflexivity|].
  rewrite dict_set_twice. reflexivity.
Qed.

Lemma carrier_sets_authorization_header_witness :
  BearerAuth__call__ {| token := PStr "XYZ" |}
    {| headers := [("accept", PStr "*/*"); ("authorization", PStr "Basic old")];
       payload := PNone |}
  = inr {| headers := [("accept", PStr "*/*"); ("authorization", PStr "Bearer XYZ")];
           payload := PNone |}.
Proof.
  destruct (carrier_sets_authorization_header {| token := PStr "XYZ" |}
              {| headers := [("accept", PStr "*/*"); ("authorization", PStr "Basic old")];
                 payload := PNone |} "XYZ" eq_refl) as (r' & H & _).
  rewrite H. vm_compute in H. injection H as <-. reflexivity.
Defined.

(** X2.  A carrier built by the constructor can be applied to a request
    exactly when it was built from a string, or from a dict whose
    ["access_result"] is a string; built from anything else, applying it
    raises TypeError. *)
Theorem carrier_applies_iff_string (t : pyval) (r : Request) :
  ((exists r', BearerAuth__call__ (BearerAuth__init__ t) r = inr r') <->
   (exists s, t = PStr s) \/
   (exists d s, t = PDict d /\ dict_get "access_result" d = Some (PStr s))) /\
  ((forall r', BearerAuth__call__ (BearerAuth__init__ t) r <> inr r') ->
   exists e, BearerAuth__call__ (BearerAuth__init__ t) r = inl e /\
             exn_cls e = TypeError).
Proof.
  unfold BearerAuth__call__, authorization_header, BearerAuth__init__.
  split.
  - split.
    + intros [r' H].
      destruct t as [| b | z | s | l | d | n]; try discriminate H.
      * left. eauto.
      * right. destruct (dict_get "access_result" d) as [inner|] eqn:Hget;
          cbn [token] in H; [|discriminate H].
        destruct inner; try discriminate H. eauto.
    + intros [[s ->] | (d & s & -> & Hget)].
      * eexists. reflexivity.
      * rewrite Hget. eexists. reflexivity.
  - intros Hno.
    destruct t as [| b | z | s | l | d | n]; cbn [token] in *;
      try (eexists; split; reflexivity).
    + exfalso. eapply Hno. reflexivity.
    + destruct (dict_get "access_result" d) as [inner|]; cbn [token] in *;
        [|eexists; split; reflexivity].
      destruct inner; try (eexists; split; reflexivity).
      exfalso. eapply Hno. reflexivity.
Qed.

Lemma carrier_applies_iff_string_witness :
  exists e,
    BearerAuth__call__ (BearerAuth__init__ PNone) {| headers := []; payload := PNone |}
    = inl e /\ exn_cls e = TypeError.
Proof.
  destruct (carrier_applies_iff_string PNone {| headers := []; payload := PNone |})
    as [_ H].
  apply H. intros r'. discriminate.
Defined.

End CarrierCall.

(** ** The global username *)

Section UserName.

Import bearerauth.

(** X3.  A non-empty name given to set_user_name is what get_user_name
    returns afterwards, whatever the login variables hold; setting the
    empty name brings the login name back.  set_user_name touches
    nothing else. *)
Theorem set_user_name_then_get (username : string) (st : State) :
  (username <> "" ->
   snd (get_user_name (fst (set_user_name username st))) = inr (PStr username)) /\
  (username = "" ->
   snd (get_user_name (fst (set_user_name username st))) = snd (get_login_name st)) /\
  snd (set_user_name username st) = inr tt /\
  _token_location (fst (set_user_name username st)) = _token_location st /\
  environ (fst (set_user_name username st)) = environ st /\
  history (fst (set_user_name username st)) = history st.
Proof.
  unfold get_user_name, set_user_name, get_login_name. cbn.
  split; [|split; [|auto]].
  - intros Hne. destruct username; [contradiction | reflexivity].
  - intros ->. reflexivity.
Qed.

Lemma set_user_name_then_get_witness :
  snd (get_user_name (fst (set_user_name "BOB" (initial_state environ_empty_LOGNAME))))
  = inr (PStr "BOB").
Proof.
  destruct (set_user_name_then_get "BOB" (initial_state environ_empty_LOGNAME))
    as [H _].
  apply H. discriminate.
Defined.

Lemma login_name_loop_agree (names : list string) (st st' : State) :
  (forall n, In n names -> environ st n = environ st' n) ->
  login_name_loop names st = login_name_loop names st'.
Proof.
  induction names as [|n names IH]; intros Hagree; cbn; [reflexivity|].
  unfold os_getenv. rewrite <- (Hagree n (or_introl eq_refl)).
  rewrite IH; [reflexivity|]. intros m Hm. apply Hagree. right. exact Hm.
Qed.

Lemma login_name_loop_none_iff (names : list string) (st : State) :
  login_name_loop names st = PNone <-> forall n, In n names -> environ st n = None.
Proof.
  induction names as [|n names IH]; cbn.
  - split; [intros _ m [] | reflexivity].
  - unfold os_getenv. destruct (environ st n) as [v|] eqn:Hn; cbn.
    + split; [discriminate|]. intros H.
      rewrite (H n (or_introl eq_refl)) in Hn. discriminate Hn.
    + rewrite IH. split.
      * intros H m [<- | Hm]; [exact Hn | apply H; exact Hm].
      * intros H m Hm. apply H. right. exact Hm.
Qed.

(** X4.  get_login_name reads the four variables LOGNAME, USER, LNAME,
    USERNAME and nothing else: two environments that agree on them give
    the same answer, the globals play no part, and the answer is None
    exactly when none of the four is set. *)
Theorem get_login_name_reads_four_variables (st st' : State) :
  ((forall n, In n ["LOGNAME"; "USER"; "LNAME"; "USERNAME"] ->
      environ st n = environ st' n) ->
   snd (get_login_name st) = snd (get_login_name st')) /\
  (snd (get_login_name st) = inr PNone <->
   forall n, In n ["LOGNAME"; "USER"; "LNAME"; "USERNAME"] -> environ st n = None) /\
  fst (get_login_name st) = st.
Proof.
  unfold get_login_name. cbn [fst snd]. fold env_names.
  split; [|split; [|reflexivity]].
  - intros Hagree. f_equal. apply login_name_loop_agree. exact Hagree.
  - rewrite <- login_name_loop_none_iff. split; [congruence|].
    intros ->. reflexivity.
Qed.

Definition environ_only_HOME : string -> option string :=
  fun name => if String.eqb name "HOME" then Some "/root" else None.

Lemma get_login_name_reads_four_variables_witness :
  snd (get_login_name (initial_state environ_only_HOME)) = inr PNone.
Proof.
  destruct (get_login_name_reads_four_variables (initial_state environ_only_HOME)
              (initial_state no_environ)) as [H _].
  rewrite H; [reflexivity|].
  intros n [<- | [<- | [<- | [<- | []]]]]; reflexivity.
Defined.

End UserName.

(** ** What a run does to the globals *)

(** From a state in [I], a run of [m] ends in a state in [J]. *)
Definition leads {A} (I J : State -> Prop) (m : M A) : Prop :=
  forall st, I st -> J (fst (m st)).

(** [I] does not look at the call history. *)
Definition history_blind (I : State -> Prop) : Prop :=
  forall c st, I st -> I (record c st).

(** Storing [location], should set_token_location accept it, keeps [I]. *)
Definition location_ok (I : State -> Prop) (location : pyval) : Prop :=
  forall s, location = PStr s -> valid_location s ->
  forall st, I st -> I (bearerauth.set_global_location s st).

Section Leads.

Context {A B : Type} (I J K : State -> Prop).

Lemma leads_ret (a : A) : leads I I (ret a).
Proof. intros st H. exact H. Qed.

Lemma leads_raise (e : exn) : leads I I (@raise A e).
Proof. intros st H. exact H. Qed.

Lemma leads_lift (r : result A) : leads I I (lift r).
Proof. intros st H. exact H. Qed.

(** The state a run stops in when [m] raises is in [J] as well, so [K]
    has to cover [J]. *)
Lemma leads_bind (m : M A) (k : A -> M B) :
  leads I J m -> (forall a, leads J K (k a)) -> (forall st, J st -> K st) ->
  leads I K (bind m k).
Proof.
  intros Hm Hk HJK st HI. unfold bind. specialize (Hm st HI).
  destruct (m st) as [st1 [e|a]]; cbn [fst] in *.
  - apply HJK. exact Hm.
  - apply Hk. exact Hm.
Qed.

End Leads.

Section Keeps.

Context (I : State -> Prop) (Hblind : history_blind I).

Lemma keeps_bind {A B} (m : M A) (k : A -> M B) :
  leads I I m -> (forall a, leads I I (k a)) -> leads I I (bind m k).
Proof. intros Hm Hk. apply (leads_bind I I I); auto. Qed.

Lemma keeps_try_except_Exception {A} (m h : M A) :
  leads I I m -> leads I I h -> leads I I (try_except_Exception m h).
Proof.
  intros Hm Hh st HI. unfold try_except_Exception. specialize (Hm st HI).
  destruct (m st) as [st1 [e|a]]; cbn [fst] in *; [|exact Hm].
  destruct (is_Exception e); [apply Hh|]; exact Hm.
Qed.

Lemma keeps_try_except_Import_Runtime {A} (m h : M A) :
  leads I I m -> leads I I h -> leads I I (try_except_Import_Runtime m h).
Proof.
  intros Hm Hh st HI. unfold try_except_Import_Runtime. specialize (Hm st HI).
  destruct (m st) as [st1 [e|a]]; cbn [fst] in *; [|exact Hm].
  destruct (exn_cls e); try exact Hm; apply Hh; exact Hm.
Qed.

Lemma keeps_call (env : Env) (c : Call) : leads I I (call env c).
Proof. intros st HI. apply Hblind. exact HI. Qed.

Lemma keeps_do_print (msg : string) : leads I I (do_print msg).
Proof. intros st HI. apply Hblind. exact HI. Qed.

Lemma keeps_when (b : bool) (m : M unit) : leads I I m -> leads I I (when b m).
Proof. intros Hm. destruct b; [exact Hm | apply leads_ret]. Qed.

Lemma keeps_get_token_location : leads I I bearerauth.get_token_location.
Proof. intros st HI. exact HI. Qed.

Lemma keeps_set_token_location (location : pyval) :
  location_ok I location -> leads I I (bearerauth.set_token_location location).
Proof.
  intros Hok st HI. unfold bearerauth.set_token_location.
  destruct location as [| | | s | | |]; try exact HI.
  destruct ((4 <? String.length s)%nat && str_in "." s) eqn:Hv; [|exact HI].
  apply valid_location_test in Hv. cbn [fst]. apply (Hok s eq_refl Hv st HI).
Qed.

End Keeps.

(** As [emits_tac], for [leads I I]. *)
Ltac keeps_tac :=
  repeat match goal with
    | |- leads _ _ (ret _) => apply leads_ret
    | |- leads _ _ (raise _) => apply leads_raise
    | |- leads _ _ (lift _) => apply leads_lift
    | |- leads _ _ bearerauth.get_token_location => apply keeps_get_token_location
    | |- leads _ _ (call _ _) => apply keeps_call; [assumption]
    | |- leads _ _ (do_print _) => apply keeps_do_print; [assumption]
    | |- leads _ _ (when _ _) => apply keeps_when
    | |- leads _ _ (try_except_Exception _ _) => apply keeps_try_except_Exception
    | |- leads _ _ (try_except_Import_Runtime _ _) =>
        apply keeps_try_except_Import_Runtime
    | |- leads _ _ (bind _ _) => apply keeps_bind; [|intros ?]
    | |- leads _ _ (if ?b then _ else _) => destruct b
    end.

Section GetAuthGlobals.

Import bearerauth.

Variable env : Env.
Variable I : State -> Prop.
Hypothesis Hblind : history_blind I.

Lemma get_app_with_cache_keeps (client_id : string) (authority token_location : pyval) :
  location_ok I token_location ->
  leads I I (get_app_with_cache env client_id authority token_location).
Proof.
  intros Hok. unfold get_app_with_cache.
  apply keeps_bind; [|intros _; keeps_tac].
  destruct token_location as [| | | s | | |]; try apply leads_ret.
  destruct (0 <? String.length s)%nat; [|apply leads_ret].
  apply keeps_set_token_location. exact Hok.
Qed.

Lemma open_and_list_keeps (clientID : string) (authority token_location username : pyval) :
  location_ok I token_location ->
  leads I I (open_and_list env clientID authority token_location username).
Proof.
  intros Hok. unfold open_and_list. keeps_tac.
  apply get_app_with_cache_keeps. exact Hok.
Qed.

Lemma delete_cache_file_keeps (verbose : bool) :
  leads I I (delete_cache_file env verbose).
Proof.
  unfold delete_cache_file. keeps_tac.
Qed.

Lemma recover_keeps (clientID : string) (authority token_location username : pyval)
  (verbose : bool) :
  location_ok I token_location ->
  leads I I (recover env clientID authority token_location username verbose).
Proof.
  intros Hok. unfold recover. apply keeps_bind.
  - apply delete_cache_file_keeps.
  - intros _. apply open_and_list_keeps. exact Hok.
Qed.

Lemma silent_step_keeps (scopes : list string) (username app accounts : pyval)
  (verbose : bool) :
  leads I I (silent_step env scopes username app accounts verbose).
Proof.
  unfold silent_step. keeps_tac.
Qed.

Lemma interactive_step_keeps (tenantID : string) (scopes : list string)
  (app result : pyval) (verbose : bool) :
  leads I I (interactive_step env tenantID scopes app result verbose).
Proof.
  unfold interactive_step. keeps_tac.
Qed.

Lemma finish_keeps (result : pyval) (verbose : bool) :
  leads I I (finish env result verbose).
Proof.
  unfold finish. keeps_tac.
Qed.

(** What get_auth does once the cache phase has returned. *)
Definition after_cache (tenantID : string) (scopes : list string) (username : pyval)
  (verbose : bool) (aa : pyval * pyval) : M BearerAuth :=
  result <- silent_step env scopes username (fst aa) (snd aa) verbose ;;
  result' <- interactive_step env tenantID scopes (fst aa) result verbose ;;
  finish env result' verbose.

Lemma get_auth_after_cache (tenantID clientID : string) (scopes : list string)
  (username token_location authority : pyval) (verbose : bool) (st : State) :
  get_auth env tenantID clientID scopes username token_location authority verbose st
  = bind (cache_phase env clientID (resolve_authority tenantID authority)
            token_location username verbose)
      (after_cache tenantID scopes username verbose) st.
Proof.
  unfold get_auth, acquire, up_to_silent, after_cache, bind.
  destruct (cache_phase env clientID (resolve_authority tenantID authority)
              token_location username verbose st) as [st1 [e|aa]]; [reflexivity|].
  destruct (silent_step env scopes username (fst aa) (snd aa) verbose st1)
    as [st2 [e|r]]; reflexivity.
Qed.

Lemma after_cache_keeps (tenantID : string) (scopes : list string) (username : pyval)
  (verbose : bool) (aa : pyval * pyval) :
  leads I I (after_cache tenantID scopes username verbose aa).
Proof.
  unfold after_cache. apply keeps_bind; [apply silent_step_keeps|].
  intros r. apply keeps_bind; [apply interactive_step_keeps|].
  intros r'. apply finish_keeps.
Qed.

(** A property of the globals that survives storing the location the
    run works with survives the run. *)
Lemma get_auth_keeps (tenantID clientID : string) (scopes : list string)
  (username token_location authority : pyval) (verbose : bool) (st : State) :
  location_ok I (effective_location token_location st) ->
  I st ->
  I (fst (get_auth env tenantID clientID scopes username token_location authority
            verbose st)).
Proof.
  intros Hok HI. rewrite get_auth_after_cache. unfold bind.
  assert (Hc : I (fst (cache_phase env clientID (resolve_authority tenantID authority)
                         token_location username verbose st))).
  { unfold cache_phase. cbv zeta.
    apply (keeps_try_except_Exception I); [| |exact HI].
    - apply open_and_list_keeps. exact Hok.
    - apply recover_keeps. exact Hok. }
  destruct (cache_phase env clientID (resolve_authority tenantID authority)
              token_location username verbose st) as [st1 [e|aa]];
    cbn [fst] in *; [exact Hc|].
  apply after_cache_keeps. exact Hc.
Qed.

End GetAuthGlobals.

Section GlobalsAfterRuns.

Import bearerauth.

Variable env : Env.

(** The global token location is [g]. *)
Definition location_is (g : string) (st : State) : Prop := _token_location st = g.

(** Username and environment are those of [st0]. *)
Definition same_user (st0 st : State) : Prop :=
  _username st = _username st0 /\ environ st = environ st0.

Lemma location_is_blind (g : string) : history_blind (location_is g).
Proof. intros c st H. exact H. Qed.

Lemma same_user_blind (st0 : State) : history_blind (same_user st0).
Proof. intros c st H. exact H. Qed.

Lemma same_user_location_ok (st0 : State) (location : pyval) :
  location_ok (same_user st0) location.
Proof. intros s _ _ st H. exact H. Qed.

Lemma location_is_ok_same (g : string) : location_ok (location_is g) (PStr g).
Proof. intros s Hs _ st _. injection Hs as <-. reflexivity. Qed.

Lemma location_is_ok_rejected (g : string) (location : pyval) :
  (forall s, location = PStr s -> ~ valid_location s) ->
  location_ok (location_is g) location.
Proof. intros Hrej s Hs Hv. exfalso. exact (Hrej s Hs Hv). Qed.

Lemma valid_location_nonempty (s : string) : valid_location s -> truthy (PStr s) = true.
Proof.
  intros [Hlen _]. destruct s; [cbn in Hlen; lia | reflexivity].
Qed.

(** With a location that set_token_location accepts, the first thing
    an attempt does is to store it. *)
Lemma open_and_list_sets (clientID : string) (authority username : pyval) (s : string)
  (st : State) :
  valid_location s ->
  location_is s (fst (open_and_list env clientID authority (PStr s) username st)).
Proof.
  intros Hv.
  assert (Hset : set_token_location (PStr s) st = (set_global_location s st, inr tt)).
  { unfold set_token_location.
    rewrite (proj2 (valid_location_test s) Hv). reflexivity. }
  assert (Hne : (0 <? String.length s)%nat = true).
  { destruct Hv as [Hlen _]. apply Nat.ltb_lt. lia. }
  pose proof (location_is_blind s) as Hb.
  refine (leads_bind (fun _ => True) (location_is s) (location_is s) _ _ _ _ _ st I).
  - refine (leads_bind (fun _ => True) (location_is s) (location_is s) _ _ _ _ _).
    + intros st' _. rewrite Hne.
      unfold set_token_location.
      rewrite (proj2 (valid_location_test s) Hv). reflexivity.
    + intros _. keeps_tac.
    + auto.
  - intros app. keeps_tac.
  - auto.
Qed.

Lemma effective_location_rejected (token_location : pyval) (st : State) :
  (forall s, token_location = PStr s -> ~ valid_location s) ->
  location_ok (location_is (_token_location st)) (effective_location token_location st).
Proof.
  intros Hrej. unfold effective_location.
  destruct (truthy token_location).
  - apply location_is_ok_rejected. exact Hrej.
  - apply location_is_ok_same.
Qed.

(** X5.  get_auth never changes the global username or the process
    environment.  It leaves the global token location as it was unless
    [token_location] is a string that set_token_location accepts; such
    a string is stored in the global, and stays there after the call,
    whether the call returns or raises. *)
Theorem get_auth_globals (tenantID clientID : string) (scopes : list string)
  (username token_location authority : pyval) (verbose : bool) (st : State) :
  _username (fst (get_auth env tenantID clientID scopes username token_location
                    authority verbose st)) = _username st /\
  environ (fst (get_auth env tenantID clientID scopes username token_location
                  authority verbose st)) = environ st /\
  ((forall s, token_location = PStr s -> ~ valid_location s) ->
   _token_location (fst (get_auth env tenantID clientID scopes username token_location
                           authority verbose st)) = _token_location st) /\
  (forall s, token_location = PStr s -> valid_location s ->
   _token_location (fst (get_auth env tenantID clientID scopes username token_location
                           authority verbose st)) = s).
Proof.
  split; [|split; [|split]].
  - apply (get_auth_keeps env (same_user st) (same_user_blind st)).
    + apply same_user_location_ok.
    + split; reflexivity.
  - apply (get_auth_keeps env (same_user st) (same_user_blind st)).
    + apply same_user_location_ok.
    + split; reflexivity.
  - intros Hrej.
    apply (get_auth_keeps env (location_is (_token_location st))
             (location_is_blind (_token_location st))).
    + apply effective_location_rejected. exact Hrej.
    + reflexivity.
  - intros s -> Hv. rewrite get_auth_after_cache. unfold bind.
    pose proof (location_is_blind s) as Hb.
    assert (Hc : location_is s
                   (fst (cache_phase env clientID (resolve_authority tenantID authority)
                           (PStr s) username verbose st))).
    { unfold cache_phase, effective_location. cbv zeta.
      rewrite (valid_location_nonempty s Hv). cbn [negb].
      unfold try_except_Exception.
      pose proof (open_and_list_sets clientID (resolve_authority tenantID authority)
                    username s st Hv) as H1.
      destruct (open_and_list env clientID (resolve_authority tenantID authority)
                  (PStr s) username st) as [st1 [e|aa]]; cbn [fst] in *; [|exact H1].
      destruct (is_Exception e); [|exact H1].
      apply (recover_keeps env (location_is s) Hb); [apply location_is_ok_same | exact H1]. }
    destruct (cache_phase env clientID (resolve_authority tenantID authority)
                (PStr s) username verbose st) as [st1 [e|aa]];
      cbn [fst] in *; [exact Hc|].
    apply (after_cache_keeps env (location_is s) Hb). exact Hc.
Qed.

End GlobalsAfterRuns.

Lemma get_auth_globals_witness :
  _token_location
    (fst (bearerauth.get_auth provider_corrupt_cache "T" "C" ["S"] (PStr "")
            (PStr "my.cache") (PStr "") false fresh))
  = "my.cache".
Proof.
  destruct (get_auth_globals provider_corrupt_cache "T" "C" ["S"] (PStr "")
              (PStr "my.cache") (PStr "") false fresh) as (_ & _ & _ & H).
  apply (H "my.cache" eq_refl).
  split; [cbn; lia | exists "my", "cache"; reflexivity].
Defined.

Section GlobalsOfGetToken.

Variable env : Env.

(** All three globals are those of [st0]. *)
Definition same_globals (st0 st : State) : Prop :=
  _token_location st = _token_location st0 /\
  _username st = _username st0 /\
  environ st = environ st0.

Lemma same_globals_blind (st0 : State) : history_blind (same_globals st0).
Proof. intros c st H. exact H. Qed.

(** With the default [token_location] a run of get_auth stores the
    location that is already there. *)
Lemma get_auth_default_keeps (st0 : State) (tenantID clientID : string)
  (scopes : list string) (username authority : pyval) (verbose : bool) :
  leads (same_globals st0) (same_globals st0)
    (bearerauth.get_auth env tenantID clientID scopes username (PStr "") authority
       verbose).
Proof.
  intros st HI.
  apply (get_auth_keeps env (same_globals st0) (same_globals_blind st0)); [|exact HI].
  intros s Hs _ st' (H1 & H2 & H3). cbn in Hs. injection Hs as <-.
  destruct HI as (Hl & _ & _). repeat split; assumption.
Qed.

Lemma get_public_app_token_keeps (st0 : State) (self : Authenticator.Authenticator)
  (username : option string) (scope : option Authenticator.scope_arg) :
  leads (same_globals st0) (same_globals st0)
    (Authenticator.get_public_app_token env self username scope).
Proof.
  pose proof (same_globals_blind st0) as Hb.
  unfold Authenticator.get_public_app_token.
  destruct (if negb (Authenticator.opt_truthy username) then _ else _)
    as [self' username'].
  keeps_tac. apply get_auth_default_keeps.
Qed.

Lemma client_secret_exchange_keeps (st0 : State) (self : Authenticator.Authenticator)
  (secret : string) (scopes : list string) :
  leads (same_globals st0) (same_globals st0)
    (Authenticator.client_secret_exchange env self secret scopes).
Proof.
  pose proof (same_globals_blind st0) as Hb.
  unfold Authenticator.client_secret_exchange. keeps_tac.
Qed.

Lemma get_az_token_keeps (st0 : State) (self : Authenticator.Authenticator)
  (scope : Authenticator.scope_arg) :
  leads (same_globals st0) (same_globals st0) (Authenticator.get_az_token env self scope).
Proof.
  pose proof (same_globals_blind st0) as Hb.
  unfold Authenticator.get_az_token. keeps_tac.
Qed.

(** X6.  Authenticator.get_token and the module-level get_token change
    none of the globals: after the call the token location, the
    username and the environment are what they were, whichever strategy
    ran and whether it returned or raised. *)
Theorem get_token_leaves_globals (self : Authenticator.Authenticator)
  (scopes : option (list string)) (tenant_id client_id : string)
  (scopes' : list string) (st : State) :
  same_globals st (fst (Authenticator.get_token env self scopes st)) /\
  same_globals st (fst (bearerauth.get_token env tenant_id client_id scopes' st)).
Proof.
  pose proof (same_globals_blind st) as Hb.
  assert (H0 : same_globals st st) by (repeat split).
  split.
  - revert H0. generalize st at 2 4. change (leads (same_globals st) (same_globals st)
      (Authenticator.get_token env self scopes)).
    unfold Authenticator.get_token.
    destruct (Authenticator.str_truthy (Authenticator.token self)); [apply leads_ret|].
    apply keeps_bind; [destruct scopes; keeps_tac|]. intros sc.
    destruct (Authenticator.opt_truthy (Authenticator.client_secret self)).
    + keeps_tac. apply client_secret_exchange_keeps.
    + destruct (Authenticator.opt_truthy (Authenticator.client_id self)).
      * apply get_public_app_token_keeps.
      * keeps_tac. apply get_az_token_keeps.
  - revert H0. generalize st at 2 4. change (leads (same_globals st) (same_globals st)
      (bearerauth.get_token env tenant_id client_id scopes')).
    unfold bearerauth.get_token. keeps_tac. apply get_auth_default_keeps.
Qed.

End GlobalsOfGetToken.

Section LocationInvariant.

Import bearerauth.

(** The global token location passes set_token_location's own test. *)
Definition location_valid (st : State) : Prop := valid_location (_token_location st).

Lemma location_valid_blind : history_blind location_valid.
Proof. intros c st H. exact H. Qed.

Lemma location_valid_ok (location : pyval) : location_ok location_valid location.
Proof. intros s _ Hv st _. exact Hv. Qed.

Lemma initial_location_valid (environ0 : string -> option string) :
  location_valid (initial_state environ0).
Proof.
  split; [cbn; lia | exists "token_cache", "bin"; reflexivity].
Qed.

(** X7.  The global token location always passes set_token_location's
    test: it does so when the module is loaded, and no call of
    set_token_location, get_app_with_cache or get_auth, with whatever
    arguments and provider, ends in a state where it does not. *)
Theorem token_location_stays_valid :
  (forall environ0, location_valid (initial_state environ0)) /\
  (forall st,
     location_valid st ->
     (forall location, location_valid (fst (set_token_location location st))) /\
     (forall env client_id authority token_location,
        location_valid
          (fst (get_app_with_cache env client_id authority token_location st))) /\
     (forall env tenantID clientID scopes username token_location authority verbose,
        location_valid
          (fst (get_auth env tenantID clientID scopes username token_location authority
                  verbose st)))).
Proof.
  split; [exact initial_location_valid|].
  intros st Hv. split; [|split].
  - intros location.
    apply (keeps_set_token_location location_valid location
             (location_valid_ok location) st Hv).
  - intros env client_id authority token_location.
    apply (get_app_with_cache_keeps env location_valid location_valid_blind
             client_id authority token_location (location_valid_ok token_location) st Hv).
  - intros env tenantID clientID scopes username token_location authority verbose.
    apply (get_auth_keeps env location_valid location_valid_blind).
    + apply location_valid_ok.
    + exact Hv.
Qed.

Lemma token_location_stays_valid_witness :
  location_valid
    (fst (get_auth provider_corrupt_cache "T" "C" ["S"] (PStr "") (PStr "my.cache")
            (PStr "") true fresh)).
Proof.
  destruct token_location_stays_valid as [Hinit Hstep].
  destruct (Hstep fresh (Hinit no_environ)) as (_ & _ & H).
  apply H.
Defined.

End LocationInvariant.

(** ** get_auth: the shape of its calls *)

Section CallShapes.

Import bearerauth.

Variable env : Env.
Variables tenantID clientID : string.
Variable scopes : list string.
Variables username authority : pyval.

(** The calls one attempt to open the cache and list the accounts can
    make. *)
Inductive open_call : Call -> Prop :=
| open_build location : open_call (build_encrypted_persistence location)
| open_file location : open_call (FilePersistence location)
| open_cache persistence : open_call (PersistedTokenCache persistence)
| open_app cache : open_call (PublicClientApplication clientID authority cache)
| open_accounts app : open_call (get_accounts app username).

(** The calls of the deletion step. *)
Inductive delete_call : Call -> Prop :=
| delete_isfile path : delete_call (os_path_isfile path)
| delete_print msg : delete_call (print msg)
| delete_remove path : delete_call (os_remove path).

(** The calls after the cache phase. *)
Inductive acquire_call : Call -> Prop :=
| acquire_print msg : acquire_call (print msg)
| acquire_silent app account : acquire_call (acquire_token_silent app scopes account)
| acquire_interactive app : acquire_call (acquire_token_interactive app scopes tenantID).

Lemma get_app_with_cache_shape (token_location : pyval) :
  emits open_call (get_app_with_cache env clientID authority token_location).
Proof.
  unfold get_app_with_cache. emits_tac; constructor.
Qed.

Lemma open_and_list_shape (token_location : pyval) :
  emits open_call (open_and_list env clientID authority token_location username).
Proof.
  unfold open_and_list. emits_tac;
    try apply get_app_with_cache_shape; constructor.
Qed.

Lemma delete_cache_file_shape (verbose : bool) :
  emits delete_call (delete_cache_file env verbose).
Proof.
  unfold delete_cache_file. emits_tac; constructor.
Qed.

Lemma after_cache_shape (verbose : bool) (aa : pyval * pyval) :
  emits acquire_call (after_cache env tenantID scopes username verbose aa).
Proof.
  unfold after_cache, silent_step, interactive_step, finish.
  emits_tac; constructor.
Qed.

(** The calls of the cache phase, and every call a run of get_auth can
    make. *)
Definition cache_call (c : Call) : Prop := open_call c \/ delete_call c.

Definition get_auth_call (c : Call) : Prop := cache_call c \/ acquire_call c.

Lemma recover_shape (token_location : pyval) (verbose : bool) :
  emits cache_call (recover env clientID authority token_location username verbose).
Proof.
  unfold recover. apply emits_bind.
  - eapply emits_weaken; [|apply delete_cache_file_shape].
    intros c H. right. exact H.
  - intros _. eapply emits_weaken; [|apply open_and_list_shape].
    intros c H. left. exact H.
Qed.

Lemma cache_phase_shape (token_location : pyval) (verbose : bool) :
  emits cache_call (cache_phase env clientID authority token_location username verbose).
Proof.
  intros st. unfold cache_phase. cbv zeta.
  set (tl := effective_location token_location st).
  assert (H : emits cache_call
    (try_except_Exception
       (open_and_list env clientID authority tl username)
       (recover env clientID authority tl username verbose))).
  { apply emits_try_except_Exception; [|apply recover_shape].
    eapply emits_weaken; [|apply open_and_list_shape].
    intros c Hc. left. exact Hc. }
  exact (H st).
Qed.

End CallShapes.

Section GetAuthShape.

Import bearerauth.

Lemma get_auth_shape (env : Env) (tenantID clientID : string) (scopes : list string)
  (username token_location authority : pyval) (verbose : bool) :
  emits (get_auth_call tenantID clientID scopes username
           (resolve_authority tenantID authority))
    (get_auth env tenantID clientID scopes username token_location authority verbose).
Proof.
  intros st'.
  assert (H : emits (get_auth_call tenantID clientID scopes username
                       (resolve_authority tenantID authority))
                (bind (cache_phase env clientID (resolve_authority tenantID authority)
                         token_location username verbose)
                   (after_cache env tenantID scopes username verbose))).
  { apply emits_bind.
    - eapply emits_weaken; [|apply cache_phase_shape].
      intros c Hc. left. exact Hc.
    - intros aa. eapply emits_weaken; [|apply after_cache_shape].
      intros c Hc. right. exact Hc. }
  rewrite get_auth_after_cache. exact (H st').
Qed.

(** X8.  Every external call of a run of get_auth is one of: a call that
    opens the cache and lists the accounts, made with the caller's client
    id and username and with the caller's authority (the tenant's login
    URL when the caller gave None or an empty string); a call of the
    deletion step; a silent or interactive acquisition for the caller's
    scopes, the interactive one with the tenant id as domain hint; a
    print. *)
Theorem get_auth_calls_carry_arguments (env : Env) (tenantID clientID : string)
  (scopes : list string) (username token_location authority : pyval) (verbose : bool)
  (st : State) :
  Forall (get_auth_call tenantID clientID scopes username
            (resolve_authority tenantID authority))
    (calls_made (get_auth env tenantID clientID scopes username token_location
                   authority verbose) st) /\
  (authority = PNone \/ authority = PStr "" ->
   resolve_authority tenantID authority
   = PStr ("https://login.microsoftonline.com/" ++ tenantID)) /\
  (authority <> PNone -> authority <> PStr "" ->
   resolve_authority tenantID authority = authority).
Proof.
  split; [|split].
  - apply emits_calls_made. apply get_auth_shape.
  - intros [-> | ->]; reflexivity.
  - intros Hn He. unfold resolve_authority.
    destruct authority as [| | | s | | |]; try reflexivity; [contradiction|].
    destruct s; [contradiction | reflexivity].
Qed.

Lemma get_auth_calls_carry_arguments_witness :
  resolve_authority "T" PNone = PStr "https://login.microsoftonline.com/T".
Proof.
  destruct (get_auth_calls_carry_arguments provider_empty_cache "T" "C" ["S"]
              (PStr "") (PStr "") PNone false fresh) as (_ & H & _).
  apply H. left. reflexivity.
Defined.

End GetAuthShape.

(** ** get_auth: file-system and silent calls *)

Definition is_fs (c : Call) : bool :=
  match c with
  | os_path_isfile _ | os_remove _ => true
  | _ => false
  end.

Definition is_silent (c : Call) : bool :=
  match c with
  | acquire_token_silent _ _ _ => true
  | _ => false
  end.

Lemma filter_none {A} (f : A -> bool) (l : list A) :
  Forall (fun x => f x = false) l -> filter f l = [].
Proof.
  induction 1 as [|x l Hx _ IH]; cbn; [reflexivity|].
  rewrite Hx. exact IH.
Qed.

Lemma calls_made_ext {A} (m m' : M A) (st : State) :
  m st = m' st -> calls_made m st = calls_made m' st.
Proof. intros H. unfold calls_made. rewrite H. reflexivity. Qed.

Lemma calls_made_try_except_Exception {A} (P : Call -> Prop) (m h : M A) (st : State) :
  emits P m -> emits P h ->
  calls_made (try_except_Exception m h) st
  = (calls_made m st ++
     match m st with
     | (st1, inl e) => if is_Exception e then calls_made h st1 else []
     | (_, inr _) => []
     end)%list.
Proof.
  intros Hm Hh. apply calls_made_unique.
  destruct (emits_calls_made P m st Hm) as [H1 _].
  unfold try_except_Exception. destruct (m st) as [st1 [e|a]]; cbn [fst] in *.
  - destruct (is_Exception e).
    + destruct (emits_calls_made P h st1 Hh) as [H2 _].
      rewrite H2, H1, app_assoc. reflexivity.
    + rewrite app_nil_r. exact H1.
  - rewrite app_nil_r. exact H1.
Qed.

Section FileSystemCalls.

Import bearerauth.

Variable env : Env.
Variables tenantID clientID : string.
Variable scopes : list string.
Variables username token_location authority : pyval.
Variable verbose : bool.

Lemma open_call_not_fs (cid : string) (u a : pyval) (c : Call) :
  open_call cid u a c -> is_fs c = false.
Proof. intros H. destruct H; reflexivity. Qed.

Lemma acquire_call_not_fs (t : string) (sc : list string) (c : Call) :
  acquire_call t sc c -> is_fs c = false.
Proof. intros H. destruct H; reflexivity. Qed.

Lemma cache_call_not_silent (cid : string) (u a : pyval) (c : Call) :
  cache_call cid u a c -> is_silent c = false.
Proof. intros [H | H]; destruct H; reflexivity. Qed.

Lemma open_and_list_no_fs (a tl : pyval) (st : State) :
  filter is_fs (calls_made (open_and_list env clientID a tl username) st) = [].
Proof.
  apply filter_none.
  destruct (emits_calls_made _ _ st (open_and_list_shape env clientID username a tl))
    as [_ F].
  eapply Forall_impl; [|exact F]. apply open_call_not_fs.
Qed.

Lemma after_cache_no_fs (aa : pyval * pyval) (st : State) :
  filter is_fs (calls_made (after_cache env tenantID scopes username verbose aa) st) = [].
Proof.
  apply filter_none.
  destruct (emits_calls_made _ _ st
              (after_cache_shape env tenantID scopes username verbose aa)) as [_ F].
  eapply Forall_impl; [|exact F]. apply acquire_call_not_fs.
Qed.

Lemma delete_cache_file_fs (st : State) :
  filter is_fs (calls_made (delete_cache_file env verbose) st)
  = os_path_isfile (_token_location st) ::
    match respond env (history st) (os_path_isfile (_token_location st)) with
    | inr v => if truthy v then [os_remove (_token_location st)] else []
    | inl _ => []
    end.
Proof.
  rewrite delete_cache_file_calls.
  destruct (respond env (history st) (os_path_isfile (_token_location st))) as [e|v];
    [reflexivity|].
  destruct (truthy v); [|reflexivity].
  destruct verbose; reflexivity.
Qed.

(** The calls of a run, split at the end of the cache phase. *)
Lemma get_auth_calls_split (st : State) :
  calls_made (get_auth env tenantID clientID scopes username token_location authority
                verbose) st
  = (calls_made (cache_phase env clientID (resolve_authority tenantID authority)
                   token_location username verbose) st ++
     match cache_phase env clientID (resolve_authority tenantID authority)
             token_location username verbose st with
     | (st1, inr aa) =>
         calls_made (after_cache env tenantID scopes username verbose aa) st1
     | (_, inl _) => []
     end)%list.
Proof.
  rewrite (calls_made_ext _
             (bind (cache_phase env clientID (resolve_authority tenantID authority)
                      token_location username verbose)
                (after_cache env tenantID scopes username verbose)) st
             (get_auth_after_cache env tenantID clientID scopes username token_location
                authority verbose st)).
  apply (calls_made_bind (fun _ => True)).
  - eapply emits_weaken; [|apply cache_phase_shape]. trivial.
  - intros aa. eapply emits_weaken; [|apply after_cache_shape]. trivial.
Qed.

(** The calls of the cache phase, split at the end of the first attempt. *)
Lemma cache_phase_calls_split (st : State) :
  calls_made (cache_phase env clientID (resolve_authority tenantID authority)
                token_location username verbose) st
  = (calls_made (open_and_list env clientID (resolve_authority tenantID authority)
                   (effective_location token_location st) username) st ++
     match open_and_list env clientID (resolve_authority tenantID authority)
             (effective_location token_location st) username st with
     | (st1, inl e) =>
         if is_Exception e
         then calls_made (recover env clientID (resolve_authority tenantID authority)
                            (effective_location token_location st) username verbose) st1
         else []
     | (_, inr _) => []
     end)%list.
Proof.
  rewrite <- (calls_made_try_except_Exception (fun _ => True)).
  - apply calls_made_ext. reflexivity.
  - eapply emits_weaken; [|apply open_and_list_shape]. trivial.
  - eapply emits_weaken; [|apply recover_shape]. trivial.
Qed.

Lemma recover_fs (a tl : pyval) (st : State) :
  filter is_fs (calls_made (recover env clientID a tl username verbose) st)
  = filter is_fs (calls_made (delete_cache_file env verbose) st).
Proof.
  unfold recover.
  rewrite (calls_made_bind (fun _ => True)).
  - rewrite filter_app.
    destruct (delete_cache_file env verbose st) as [st2 [e|u]].
    + cbn. rewrite app_nil_r. reflexivity.
    + rewrite open_and_list_no_fs, app_nil_r. reflexivity.
  - eapply emits_weaken; [|apply delete_cache_file_shape]. trivial.
  - intros _. eapply emits_weaken; [|apply open_and_list_shape]. trivial.
Qed.

(** X9.  A run of get_auth touches the file system only after a first
    attempt that raised an error derived from Exception.  It then asks
    once whether the global token location, as that attempt left it, is
    a file, and removes that file, once, if the answer is yes; no other
    os.path.isfile or os.remove call is made in the run. *)
Theorem get_auth_file_system_calls (st st1 : State) (r : result (pyval * pyval)) :
  open_and_list env clientID (resolve_authority tenantID authority)
    (effective_location token_location st) username st = (st1, r) ->
  ((forall e, r = inl e -> is_Exception e = false) ->
   filter is_fs
     (calls_made (get_auth env tenantID clientID scopes username token_location
                    authority verbose) st) = []) /\
  (forall e, r = inl e -> is_Exception e = true ->
   filter is_fs
     (calls_made (get_auth env tenantID clientID scopes username token_location
                    authority verbose) st)
   = os_path_isfile (_token_location st1) ::
     match respond env (history st1) (os_path_isfile (_token_location st1)) with
     | inr v => if truthy v then [os_remove (_token_location st1)] else []
     | inl _ => []
     end).
Proof.
  intros Hfirst.
  assert (Htail :
    filter is_fs
      (calls_made (get_auth env tenantID clientID scopes username token_location
                     authority verbose) st)
    = filter is_fs
        (calls_made (cache_phase env clientID (resolve_authority tenantID authority)
                       token_location username verbose) st)).
  { rewrite get_auth_calls_split, filter_app.
    destruct (cache_phase env clientID (resolve_authority tenantID authority)
                token_location username verbose st) as [st' [e|aa]].
    - cbn. rewrite app_nil_r. reflexivity.
    - rewrite after_cache_no_fs, app_nil_r. reflexivity. }
  rewrite Htail, cache_phase_calls_split, filter_app, open_and_list_no_fs, Hfirst.
  cbn [List.app]. split.
  - intros Hquiet. destruct r as [e|aa]; [|reflexivity].
    rewrite (Hquiet e eq_refl). reflexivity.
  - intros e -> He. rewrite He, recover_fs. apply delete_cache_file_fs.
Qed.

End FileSystemCalls.

Lemma get_auth_file_system_calls_witness :
  filter is_fs
    (calls_made (bearerauth.get_auth provider_corrupt_cache "T" "C" ["S"] (PStr "")
                   (PStr "") (PStr "") true) fresh)
  = [os_path_isfile "token_cache.bin"; os_remove "token_cache.bin"].
Proof.
  edestruct (get_auth_file_system_calls provider_corrupt_cache "T" "C" ["S"] (PStr "")
               (PStr "") (PStr "") true fresh) as [_ H].
  - vm_compute. reflexivity.
  - rewrite (H _ eq_refl eq_refl). reflexivity.
Defined.

Section SilentCalls.

Import bearerauth.

Variable env : Env.
Variables tenantID clientID : string.
Variable scopes : list string.
Variables username token_location authority : pyval.
Variable verbose : bool.

(** The silent call due once the accounts are listed. *)
Definition due_silent (app accounts : pyval) : list Call :=
  if truthy accounts then
    match getitem_0 accounts with
    | inr account => [acquire_token_silent app scopes account]
    | inl _ => []
    end
  else [].

Lemma silent_step_calls (app accounts : pyval) (st : State) :
  filter is_silent (calls_made (silent_step env scopes username app accounts verbose) st)
  = due_silent app accounts.
Proof.
  unfold due_silent, silent_step.
  destruct (truthy accounts).
  - destruct (getitem_0 accounts) as [e|account]; destruct verbose.
    + erewrite calls_made_unique; [|cbn; rewrite <- app_assoc; reflexivity].
      reflexivity.
    + erewrite calls_made_unique; [|cbn; rewrite app_nil_r; reflexivity].
      reflexivity.
    + erewrite calls_made_unique; [|cbn; rewrite <- !app_assoc; reflexivity].
      reflexivity.
    + erewrite calls_made_unique; [|cbn; reflexivity]. reflexivity.
  - erewrite calls_made_unique; [|cbn; rewrite app_nil_r; reflexivity]. reflexivity.
Qed.

Lemma after_silent_no_silent (app result : pyval) (st : State) :
  filter is_silent
    (calls_made (bind (interactive_step env tenantID scopes app result verbose)
                   (fun r => finish env r verbose)) st) = [].
Proof.
  apply filter_none.
  apply (emits_calls_made (fun c => is_silent c = false)).
  unfold interactive_step, finish. emits_tac; reflexivity.
Qed.

Lemma after_cache_silent (aa : pyval * pyval) (st : State) :
  filter is_silent
    (calls_made (after_cache env tenantID scopes username verbose aa) st)
  = due_silent (fst aa) (snd aa).
Proof.
  unfold after_cache.
  rewrite (calls_made_bind (fun _ => True)).
  - rewrite filter_app, silent_step_calls.
    destruct (silent_step env scopes username (fst aa) (snd aa) verbose st)
      as [st2 [e|r]].
    + cbn. apply app_nil_r.
    + rewrite after_silent_no_silent. apply app_nil_r.
  - unfold silent_step. emits_tac; exact I.
  - intros r. unfold interactive_step, finish. emits_tac; exact I.
Qed.

(** X10.  A run of get_auth calls acquire_token_silent at most once:
    exactly when the cache phase returned a non-empty account list, on
    the application that phase returned, for the caller's scopes and the
    first account of the list.  If the cache phase raised, or listed no
    account, silent acquisition is not attempted. *)
Theorem get_auth_silent_calls (st st1 : State) :
  (forall app accounts,
     cache_phase env clientID (resolve_authority tenantID authority) token_location
       username verbose st = (st1, inr (app, accounts)) ->
     filter is_silent
       (calls_made (get_auth env tenantID clientID scopes username token_location
                      authority verbose) st)
     = due_silent app accounts) /\
  (forall app account others,
     cache_phase env clientID (resolve_authority tenantID authority) token_location
       username verbose st = (st1, inr (app, PList (account :: others))) ->
     filter is_silent
       (calls_made (get_auth env tenantID clientID scopes username token_location
                      authority verbose) st)
     = [acquire_token_silent app scopes account]) /\
  (forall e,
     cache_phase env clientID (resolve_authority tenantID authority) token_location
       username verbose st = (st1, inl e) ->
     filter is_silent
       (calls_made (get_auth env tenantID clientID scopes username token_location
                      authority verbose) st) = []).
Proof.
  assert (Hcache :
    filter is_silent
      (calls_made (cache_phase env clientID (resolve_authority tenantID authority)
                     token_location username verbose) st) = []).
  { apply filter_none.
    destruct (emits_calls_made _ _ st
                (cache_phase_shape env clientID username
                   (resolve_authority tenantID authority) token_location verbose))
      as [_ F].
    eapply Forall_impl; [|exact F]. apply cache_call_not_silent. }
  assert (Hall : forall app accounts,
    cache_phase env clientID (resolve_authority tenantID authority) token_location
      username verbose st = (st1, inr (app, accounts)) ->
    filter is_silent
      (calls_made (get_auth env tenantID clientID scopes username token_location
                     authority verbose) st)
    = due_silent app accounts).
  { intros app accounts Hc.
    rewrite get_auth_calls_split, filter_app, Hcache, Hc, after_cache_silent.
    reflexivity. }
  split; [exact Hall|]. split.
  - intros app account others Hc. rewrite (Hall _ _ Hc). reflexivity.
  - intros e Hc. rewrite get_auth_calls_split, filter_app, Hcache, Hc. reflexivity.
Qed.

End SilentCalls.

Lemma get_auth_silent_calls_witness :
  filter is_silent
    (calls_made (bearerauth.get_auth provider_cached_token "T" "C" ["S"] (PStr "bob")
                   (PStr "") (PStr "") false) fresh)
  = [acquire_token_silent (PObj 0) ["S"] (PObj 7)].
Proof.
  edestruct (get_auth_silent_calls provider_cached_token "T" "C" ["S"] (PStr "bob")
               (PStr "") (PStr "") false fresh) as (_ & H & _).
  apply (H (PObj 0) (PObj 7) []). vm_compute. reflexivity.
Defined.

(** ** get_auth with a location that is rejected; get_app_with_cache *)

Section RejectedLocation.

Import bearerauth.

Variable env : Env.

Lemma get_app_with_cache_rejected (client_id : string) (authority : pyval) (s : string)
  (st : State) :
  s <> "" -> ~ valid_location s ->
  get_app_with_cache env client_id authority (PStr s) st
  = (st, inl (Raise ValueError ("Invalid location string " ++ s))).
Proof.
  intros Hne Hinv.
  assert (H0 : (0 <? String.length s)%nat = true).
  { destruct s; [contradiction | reflexivity]. }
  assert (Hv : (4 <? String.length s)%nat && str_in "." s = false).
  { destruct ((4 <? String.length s)%nat && str_in "." s) eqn:Hv; [|reflexivity].
    apply valid_location_test in Hv. contradiction. }
  unfold get_app_with_cache, bind. rewrite H0.
  unfold set_token_location. rewrite Hv. reflexivity.
Qed.

(** X11.  Called with a non-empty [token_location] that
    set_token_location rejects, get_auth never reaches the provider:
    both attempts stop at the ValueError.  In between, the deletion
    step still runs, on the file at the global location; the calls of
    the run are those of that step.  The caller gets the ValueError, or
    the error of the deletion step if that raised. *)
Theorem get_auth_rejected_location (tenantID clientID : string) (scopes : list string)
  (username authority : pyval) (verbose : bool) (s : string) (st : State) :
  s <> "" -> ~ valid_location s ->
  fst (get_auth env tenantID clientID scopes username (PStr s) authority verbose st)
  = fst (delete_cache_file env verbose st) /\
  calls_made (get_auth env tenantID clientID scopes username (PStr s) authority verbose) st
  = calls_made (delete_cache_file env verbose) st /\
  snd (get_auth env tenantID clientID scopes username (PStr s) authority verbose st)
  = match snd (delete_cache_file env verbose st) with
    | inr _ => inl (Raise ValueError ("Invalid location string " ++ s))
    | inl e => inl e
    end.
Proof.
  intros Hne Hinv.
  assert (Hrun :
    get_auth env tenantID clientID scopes username (PStr s) authority verbose st
    = match delete_cache_file env verbose st with
      | (st2, inr _) => (st2, inl (Raise ValueError ("Invalid location string " ++ s)))
      | (st2, inl e) => (st2, inl e)
      end).
  { rewrite get_auth_after_cache. unfold bind at 1.
    unfold cache_phase, effective_location, try_except_Exception. cbv zeta.
    assert (Ht : truthy (PStr s) = true) by (destruct s; [contradiction | reflexivity]).
    rewrite Ht. cbn [negb].
    assert (Hopen : forall st',
      open_and_list env clientID (resolve_authority tenantID authority) (PStr s)
        username st'
      = (st', inl (Raise ValueError ("Invalid location string " ++ s)))).
    { intros st'. unfold open_and_list, bind.
      rewrite (get_app_with_cache_rejected clientID _ s st' Hne Hinv). reflexivity. }
    rewrite Hopen. cbn [is_Exception exn_cls].
    unfold recover, bind.
    destruct (delete_cache_file env verbose st) as [st2 [e|u]]; [reflexivity|].
    rewrite Hopen. reflexivity. }
  split; [|split].
  - rewrite Hrun. destruct (delete_cache_file env verbose st) as [st2 [e|u]]; reflexivity.
  - unfold calls_made. rewrite Hrun.
    destruct (delete_cache_file env verbose st) as [st2 [e|u]]; reflexivity.
  - rewrite Hrun. destruct (delete_cache_file env verbose st) as [st2 [e|u]]; reflexivity.
Qed.

(** X12.  get_app_with_cache without a location of its own works on the
    global location.  If build_encrypted_persistence raises ImportError
    or RuntimeError, FilePersistence is asked for the same location and
    the cache is built on what it returns; an error of any other class
    stops get_app_with_cache at once and reaches the caller.  If it
    returns, FilePersistence is not called. *)
Theorem get_app_with_cache_persistence (client_id : string) (authority : pyval)
  (st : State) :
  (forall e,
     respond env (history st) (build_encrypted_persistence (_token_location st)) = inl e ->
     exn_cls e = ImportError \/ exn_cls e = RuntimeError ->
     forall persistence cache,
       respond env (history st ++ [build_encrypted_persistence (_token_location st)])
         (FilePersistence (_token_location st)) = inr persistence ->
       respond env (history st ++ [build_encrypted_persistence (_token_location st);
                                   FilePersistence (_token_location st)])
         (PersistedTokenCache persistence) = inr cache ->
       calls_made (get_app_with_cache env client_id authority (PStr "")) st
       = [build_encrypted_persistence (_token_location st);
          FilePersistence (_token_location st);
          PersistedTokenCache persistence;
          PublicClientApplication client_id authority cache]) /\
  (forall e,
     respond env (history st) (build_encrypted_persistence (_token_location st)) = inl e ->
     exn_cls e <> ImportError -> exn_cls e <> RuntimeError ->
     snd (get_app_with_cache env client_id authority (PStr "") st) = inl e /\
     calls_made (get_app_with_cache env client_id authority (PStr "")) st
     = [build_encrypted_persistence (_token_location st)]) /\
  (forall persistence cache,
     respond env (history st) (build_encrypted_persistence (_token_location st))
       = inr persistence ->
     respond env (history st ++ [build_encrypted_persistence (_token_location st)])
       (PersistedTokenCache persistence) = inr cache ->
     calls_made (get_app_with_cache env client_id authority (PStr "")) st
     = [build_encrypted_persistence (_token_location st);
        PersistedTokenCache persistence;
        PublicClientApplication client_id authority cache]).
Proof.
  split; [|split].
  - intros e He Hcls persistence cache Hp Hc. apply calls_made_unique.
    unfold get_app_with_cache, bind, try_except_Import_Runtime, get_token_location,
      call, ret.
    cbn [String.length Nat.ltb Nat.leb fst snd history record _token_location].
    rewrite He.
    assert (Hm : match exn_cls e with
                 | ImportError | RuntimeError => true
                 | _ => false
                 end = true) by (destruct Hcls as [-> | ->]; reflexivity).
    destruct (exn_cls e); try discriminate Hm;
      cbn [fst snd history record _token_location]; rewrite Hp;
      cbn [fst snd history record _token_location];
      rewrite <- app_assoc; cbn [List.app]; rewrite Hc;
      cbn [fst snd history record _token_location];
      rewrite <- !app_assoc; reflexivity.
  - intros e He Hi Hr.
    assert (Hrun : get_app_with_cache env client_id authority (PStr "") st
                   = (record (build_encrypted_persistence (_token_location st)) st,
                      inl e)).
    { unfold get_app_with_cache, bind, try_except_Import_Runtime, get_token_location,
        call, ret.
      cbn [String.length Nat.ltb Nat.leb fst snd history record _token_location].
      rewrite He. destruct (exn_cls e); try reflexivity; contradiction. }
    split; [rewrite Hrun; reflexivity|].
    apply calls_made_unique. rewrite Hrun. reflexivity.
  - intros persistence cache Hp Hc. apply calls_made_unique.
    unfold get_app_with_cache, bind, try_except_Import_Runtime, get_token_location,
      call, ret.
    cbn [String.length Nat.ltb Nat.leb fst snd history record _token_location].
    rewrite Hp. cbn [fst snd history record _token_location]. rewrite Hc.
    cbn [fst snd history record _token_location].
    rewrite <- !app_assoc. reflexivity.
Qed.

End RejectedLocation.

(** No keyring on the host: encrypted persistence cannot be imported. *)
Definition provider_no_keyring : Env :=
  scripted (fun _ c =>
    match c with
    | build_encrypted_persistence _ => inl (Raise ImportError "No module named 'gi'")
    | FilePersistence _ => inr (PObj 1)
    | PersistedTokenCache _ => inr (PObj 2)
    | _ => inr (PObj 0)
    end).

Lemma get_auth_rejected_location_witness :
  snd (bearerauth.get_auth provider_cached_token "T" "C" ["S"] (PStr "") (PStr "abc")
         (PStr "") false fresh)
  = inl (Raise ValueError "Invalid location string abc") /\
  calls_made (bearerauth.get_auth provider_cached_token "T" "C" ["S"] (PStr "")
                (PStr "abc") (PStr "") false) fresh
  = [os_path_isfile "token_cache.bin"; os_remove "token_cache.bin"].
Proof.
  destruct (get_auth_rejected_location provider_cached_token "T" "C" ["S"] (PStr "")
              (PStr "") false "abc" fresh) as (_ & H1 & H2).
  - discriminate.
  - intros [Hlen _]. cbn in Hlen. lia.
  - rewrite H1, H2. split; reflexivity.
Defined.

Lemma get_app_with_cache_persistence_witness :
  calls_made (bearerauth.get_app_with_cache provider_no_keyring "C" (PStr "A") (PStr ""))
    fresh
  = [build_encrypted_persistence "token_cache.bin";
     FilePersistence "token_cache.bin";
     PersistedTokenCache (PObj 1);
     PublicClientApplication "C" (PStr "A") (PObj 2)].
Proof.
  destruct (get_app_with_cache_persistence provider_no_keyring "C" (PStr "A") fresh)
    as (H & _).
  apply (H (Raise ImportError "No module named 'gi'") eq_refl (or_introl eq_refl)
           (PObj 1) (PObj 2) eq_refl eq_refl).
Defined.

Section ModuleGetToken.

Import bearerauth.

Variable env : Env.

(** X13.  The module-level get_token is get_auth with the default
    username, cache location, authority and verbosity: it ends in the
    same state, fails with the same error, and returns the token of the
    carrier get_auth returns.  When the acquisition steps end with a
    dict whose access_token is a non-empty string, that string is the
    result. *)
Theorem module_get_token_returns_token (tenant_id client_id : string)
  (scopes : list string) (st : State) :
  fst (get_token env tenant_id client_id scopes st)
  = fst (get_auth env tenant_id client_id scopes (PStr "") (PStr "") (PStr "") false st) /\
  snd (get_token env tenant_id client_id scopes st)
  = match snd (get_auth env tenant_id client_id scopes (PStr "") (PStr "") (PStr "")
                 false st) with
    | inr carrier => inr (token carrier)
    | inl e => inl e
    end /\
  (forall st1 d s,
     acquire env tenant_id client_id scopes (PStr "") (PStr "") (PStr "") false st
       = (st1, inr (PDict d)) ->
     dict_get "access_token" d = Some (PStr s) -> s <> "" ->
     get_token env tenant_id client_id scopes st = (st1, inr (PStr s))).
Proof.
  unfold get_token.
  destruct (fst_bind_ret
              (get_auth env tenant_id client_id scopes (PStr "") (PStr "") (PStr "") false)
              token st) as [Hfst Hsnd].
  split; [exact Hfst|]. split; [exact Hsnd|].
  intros st1 d s Ha Hget Hs.
  assert (Hu : usable (PDict d) = true).
  { apply usable_iff. exists d, (PStr s). repeat split; [exact Hget|].
    apply str_truthy_iff. exact Hs. }
  unfold bind.
  rewrite (run_after_acquire env tenant_id client_id scopes (PStr "") (PStr "") (PStr "")
             false st st1 (PDict d) Ha).
  unfold finish. rewrite Hu. cbn [when]. unfold bind, ret, lift, getitem_key.
  rewrite Hget. reflexivity.
Qed.

End ModuleGetToken.

Lemma module_get_token_returns_token_witness :
  bearerauth.get_token provider_cached_token "T" "C" ["S"] fresh
  = (fst (bearerauth.get_auth provider_cached_token "T" "C" ["S"] (PStr "") (PStr "")
            (PStr "") false fresh),
     inr (PStr "CACHED")).
Proof.
  edestruct (module_get_token_returns_token provider_cached_token "T" "C" ["S"] fresh)
    as (_ & _ & H).
  erewrite H; [reflexivity | vm_compute; reflexivity | reflexivity | discriminate].
Defined.

(** ** Authenticator: scopes and configuration *)

Section AuthenticatorScopes.

Import Authenticator.

Lemma get_client_id_unset (self : Authenticator) :
  opt_truthy (client_id self) = false ->
  get_client_id self = inl (Raise ValueError "Client ID is not set").
Proof.
  unfold get_client_id, opt_truthy, str_truthy.
  destruct (client_id self) as [s|]; [|reflexivity].
  intros H. rewrite H. reflexivity.
Qed.

Lemma get_tenant_id_unset (self : Authenticator) :
  opt_truthy (tenant_id self) = false ->
  get_tenant_id self = inl (Raise ValueError "Tenant ID is not set").
Proof.
  unfold get_tenant_id, opt_truthy, str_truthy.
  destruct (tenant_id self) as [s|]; [|reflexivity].
  intros H. rewrite H. reflexivity.
Qed.

(** X14.  get_scope never returns an empty list.  Configured scopes are
    returned as they are; without any, the default is the one scope
    [client_id + "/.default"], and without a client id either the call
    raises ValueError("Client ID is not set"). *)
Theorem get_scope_never_empty (self : Authenticator) :
  (forall l, get_scope self = inr l -> l <> []) /\
  (scopes self <> [] -> get_scope self = inr (scopes self)) /\
  (forall cid, scopes self = [] -> client_id self = Some cid -> cid <> "" ->
     get_scope self = inr [cid ++ "/.default"]) /\
  (scopes self = [] -> opt_truthy (client_id self) = false ->
   get_scope self = inl (Raise ValueError "Client ID is not set")).
Proof.
  unfold get_scope. split; [|split; [|split]].
  - intros l. destruct (scopes self) as [|s rest] eqn:Hs; cbn.
    + destruct (get_client_id self); [discriminate|].
      intros H. injection H as <-. discriminate.
    + intros H. injection H as <-. discriminate.
  - intros Hne. destruct (scopes self); [contradiction | reflexivity].
  - intros cid Hs Hc Hne. rewrite Hs. cbn.
    rewrite (proj2 (get_client_id_inr self cid) (conj Hc Hne)). reflexivity.
  - intros Hs Hc. rewrite Hs. cbn. rewrite (get_client_id_unset self Hc). reflexivity.
Qed.

Lemma get_scope_never_empty_witness :
  get_scope (__init__ (Some "T") (Some "C") None None None None) = inr ["C/.default"].
Proof.
  destruct (get_scope_never_empty (__init__ (Some "T") (Some "C") None None None None))
    as (_ & _ & H & _).
  apply (H "C"); [reflexivity | reflexivity | discriminate].
Defined.

(** X15.  What set_scope stores is what get_scope returns: a list as it
    is, a string as the one-element list of it, the empty string
    included.  Only the empty list brings the default back.  The
    constructor, unlike set_scope, takes an empty string or an empty
    list for no scopes at all. *)
Theorem set_scope_then_get_scope (self : Authenticator) :
  (forall l, l <> [] -> get_scope (set_scope self (ScopeList l)) = inr l) /\
  (forall s, get_scope (set_scope self (ScopeStr s)) = inr [s]) /\
  (forall cid, client_id self = Some cid -> cid <> "" ->
     get_scope (set_scope self (ScopeList [])) = inr [cid ++ "/.default"]) /\
  (forall t c sec a r,
     scopes (__init__ t c sec a r (Some (ScopeStr ""))) = [] /\
     scopes (__init__ t c sec a r (Some (ScopeList []))) = [] /\
     scopes (__init__ t c sec a r None) = []) /\
  (forall t c sec a r s, s <> "" ->
     scopes (__init__ t c sec a r (Some (ScopeStr s))) = [s]) /\
  (forall t c sec a r l, scopes (__init__ t c sec a r (Some (ScopeList l))) = l).
Proof.
  split; [|split; [|split; [|split; [|split]]]].
  - intros l Hne. unfold get_scope, set_scope. cbn.
    destruct l; [contradiction | reflexivity].
  - intros s. reflexivity.
  - intros cid Hc Hne. unfold get_scope, set_scope. cbn.
    rewrite (proj2 (get_client_id_inr (with_scopes self []) cid) (conj Hc Hne)).
    reflexivity.
  - intros t c sec a r. repeat split.
  - intros t c sec a r s Hne. unfold __init__, scope_truthy, str_truthy.
    destruct s; [contradiction | reflexivity].
  - intros t c sec a r l. unfold __init__, scope_truthy.
    destruct l; reflexivity.
Qed.

Lemma set_scope_then_get_scope_witness :
  get_scope (set_scope ambient_client (ScopeList ["A"; "B"])) = inr ["A"; "B"].
Proof.
  destruct (set_scope_then_get_scope ambient_client) as (H & _).
  apply H. discriminate.
Defined.

End AuthenticatorScopes.

(** ** Authenticator.get_token: instance, configuration, arguments *)

Lemma bind_inr {A B} (m : M A) (k : A -> M B) (st st' : State) (b : B) :
  bind m k st = (st', inr b) ->
  exists st1 a, m st = (st1, inr a) /\ k a st1 = (st', inr b).
Proof.
  unfold bind. destruct (m st) as [st1 [e|a]]; [discriminate|].
  intros H. exists st1, a. split; [reflexivity | exact H].
Qed.

Section GetTokenMore.

Import Authenticator.

Variable env : Env.

Lemma get_public_app_token_default (self : Authenticator) (scope : option scope_arg) :
  get_public_app_token env self None scope
  = (tid <- lift (get_tenant_id self) ;;
     cid <- lift (get_client_id self) ;;
     sc <- lift (get_scope self) ;;
     auth <- bearerauth.get_auth env tid cid sc (PStr (upper env (user_name self)))
               (PStr "") (PStr "") false ;;
     ret (self, bearerauth.token auth)).
Proof. reflexivity. Qed.

(** X16.  get_token hands back the instance it was called on: a call
    that returns has changed none of its attributes. *)
Theorem get_token_keeps_instance (self self' : Authenticator)
  (scopes : option (list string)) (st st' : State) (t : pyval) :
  get_token env self scopes st = (st', inr (self', t)) -> self' = self.
Proof.
  unfold get_token.
  destruct (str_truthy (token self)).
  - intros H. injection H as _ <- _. reflexivity.
  - intros H. apply bind_inr in H. destruct H as (st1 & sc & _ & H).
    destruct (opt_truthy (client_secret self)).
    + apply bind_inr in H. destruct H as (st2 & t' & _ & H).
      injection H as _ <- _. reflexivity.
    + destruct (opt_truthy (client_id self)).
      * rewrite get_public_app_token_default in H.
        apply bind_inr in H. destruct H as (st2 & tid & _ & H).
        apply bind_inr in H. destruct H as (st3 & cid & _ & H).
        apply bind_inr in H. destruct H as (st4 & sc' & _ & H).
        apply bind_inr in H. destruct H as (st5 & auth & _ & H).
        injection H as _ <- _. reflexivity.
      * apply bind_inr in H. destruct H as (st2 & sc' & _ & H).
        apply bind_inr in H. destruct H as (st3 & t' & _ & H).
        injection H as _ <- _. reflexivity.
Qed.

(** X17.  What get_token does when the chosen strategy lacks an
    attribute.  With a client secret but no client id, or no tenant id,
    it raises ValueError before any call.  So does the public-client
    path without a tenant id, and the ambient path without configured
    scopes (there being no client id to default from), whatever scopes
    the caller passed.  The ambient path without a tenant id raises only
    after DefaultAzureCredential has been constructed. *)
Theorem get_token_missing_configuration (self : Authenticator)
  (scopes : option (list string)) (st : State) :
  token self = "" ->
  (opt_truthy (client_secret self) = true ->
   (opt_truthy (client_id self) = false ->
    get_token env self scopes st = (st, inl (Raise ValueError "Client ID is not set"))) /\
   (opt_truthy (client_id self) = true -> opt_truthy (tenant_id self) = false ->
    get_token env self scopes st = (st, inl (Raise ValueError "Tenant ID is not set")))) /\
  (opt_truthy (client_secret self) = false ->
   (opt_truthy (client_id self) = true -> opt_truthy (tenant_id self) = false ->
    get_token env self scopes st = (st, inl (Raise ValueError "Tenant ID is not set"))) /\
   (opt_truthy (client_id self) = false -> Authenticator.scopes self = [] ->
    get_token env self scopes st = (st, inl (Raise ValueError "Client ID is not set"))) /\
   (opt_truthy (client_id self) = false -> Authenticator.scopes self <> [] ->
    opt_truthy (tenant_id self) = false ->
    forall credential,
      respond env (history st) DefaultAzureCredential = inr credential ->
      get_token env self scopes st
      = (record DefaultAzureCredential st,
         inl (Raise ValueError "Tenant ID is not set")))).
Proof.
  intros Ht. rewrite (get_token_not_preset env self scopes Ht).
  split.
  - intros Hsec. rewrite Hsec. split.
    + intros Hc. pose proof (get_client_id_unset self Hc) as Hgc.
      unfold bind, lift, requested_scopes, client_secret_exchange.
      destruct scopes as [l|].
      * unfold bind, lift. rewrite Hgc. reflexivity.
      * unfold get_scope. rewrite Hgc.
        destruct (List.length (Authenticator.scopes self) =? 0)%nat; reflexivity.
    + intros Hc Htid. pose proof (get_tenant_id_unset self Htid) as Hgt.
      destruct (get_scope_with_client_id self Hc) as [sc0 Hsc0].
      assert (Hgc : exists cid, get_client_id self = inr cid).
      { unfold get_client_id, str_truthy. destruct (client_id self) as [s|];
          [|discriminate Hc]. cbn in Hc. rewrite Hc. eauto. }
      destruct Hgc as [cid Hgc].
      unfold bind, lift, requested_scopes, client_secret_exchange.
      destruct scopes as [l|]; [|rewrite Hsc0];
        unfold bind, lift; rewrite Hgc, Hgt; reflexivity.
  - intros Hsec. rewrite Hsec. split; [|split].
    + intros Hc Htid. rewrite Hc. pose proof (get_tenant_id_unset self Htid) as Hgt.
      destruct (get_scope_with_client_id self Hc) as [sc0 Hsc0].
      rewrite get_public_app_token_default.
      unfold bind, lift, requested_scopes.
      destruct scopes as [l|]; [|rewrite Hsc0]; rewrite Hgt; reflexivity.
    + intros Hc Hs. rewrite Hc.
      assert (Hgs : get_scope self = inl (Raise ValueError "Client ID is not set")).
      { unfold get_scope. rewrite Hs. cbn. rewrite (get_client_id_unset self Hc).
        reflexivity. }
      unfold bind, lift, requested_scopes.
      destruct scopes as [l|]; rewrite Hgs; reflexivity.
    + intros Hc Hs Htid credential Hcred. rewrite Hc.
      pose proof (get_tenant_id_unset self Htid) as Hgt.
      assert (Hgs : get_scope self = inr (Authenticator.scopes self)).
      { unfold get_scope. destruct (Authenticator.scopes self); [contradiction|].
        reflexivity. }
      unfold get_az_token; unfold bind, lift, requested_scopes, call, ret.
      destruct (Authenticator.scopes self) as [|s0 rest] eqn:Hscopes; [contradiction|].
      destruct scopes as [l|]; rewrite Hgs; cbn [history record fst snd];
        rewrite Hcred, Hgt; reflexivity.
Qed.

End GetTokenMore.

Lemma get_token_missing_configuration_witness :
  Authenticator.get_token provider_ambient
    (Authenticator.__init__ None None None None None
       (Some (Authenticator.ScopeStr "S"))) (Some ["X"]) fresh
  = (record DefaultAzureCredential fresh, inl (Raise ValueError "Tenant ID is not set")).
Proof.
  destruct (get_token_missing_configuration provider_ambient
              (Authenticator.__init__ None None None None None
                 (Some (Authenticator.ScopeStr "S"))) (Some ["X"]) fresh eq_refl)
    as (_ & H).
  destruct (H eq_refl) as (_ & _ & H').
  apply (H' eq_refl ltac:(discriminate) eq_refl (PObj 0) eq_refl).
Defined.

Lemma bind_ret_l {A B} (a : A) (k : A -> M B) (st : State) :
  bind (ret a) k st = k a st.
Proof. reflexivity. Qed.

Lemma bind_lift {A B} (r : result A) (k : A -> M B) (st : State) :
  bind (lift r) k st
  = match r with
    | inr a => k a st
    | inl e => (st, inl e)
    end.
Proof. destruct r; reflexivity. Qed.

Section GetTokenArguments.

Import Authenticator.

Variable env : Env.

(** X18.  In the confidential-client branch an error raised by the
    application constructor or by the exchange reaches the caller as it
    is, and an exchange that answers None makes get_token raise
    ValueError("Could not get token."). *)
Theorem exchange_without_response (self : Authenticator) (scopes : option (list string))
  (st : State) (secret cid tid : string) (sc : list string) :
  token self = "" ->
  client_secret self = Some secret -> secret <> "" ->
  get_client_id self = inr cid -> get_tenant_id self = inr tid ->
  requested_scopes self scopes = inr sc ->
  (forall e,
     respond env (history st) (ConfidentialClientApplication cid secret (authority_of tid))
       = inl e ->
     get_token env self scopes st
     = (record (ConfidentialClientApplication cid secret (authority_of tid)) st, inl e)) /\
  (forall c,
     respond env (history st) (ConfidentialClientApplication cid secret (authority_of tid))
       = inr c ->
     (respond env (history st ++ [ConfidentialClientApplication cid secret (authority_of tid)])
        (acquire_token_for_client c sc) = inr PNone ->
      snd (get_token env self scopes st) = inl (Raise ValueError "Could not get token.")) /\
     (forall e,
        respond env (history st ++ [ConfidentialClientApplication cid secret (authority_of tid)])
          (acquire_token_for_client c sc) = inl e ->
        snd (get_token env self scopes st) = inl e)).
Proof.
  intros Ht Hsec Hsne Hgc Hgt Hsc.
  assert (Htruthy : opt_truthy (client_secret self) = true).
  { rewrite Hsec. destruct secret; [contradiction | reflexivity]. }
  rewrite (get_token_not_preset env self scopes Ht), Htruthy, Hsec. cbn [opt_value].
  unfold client_secret_exchange; unfold bind, lift, call.
  rewrite Hsc, Hgc, Hgt. fold (authority_of tid). cbn [history record fst snd].
  split.
  - intros e He. rewrite He. reflexivity.
  - intros c Hc. rewrite Hc. cbn [history record fst snd]. split.
    + intros Hd. rewrite Hd. reflexivity.
    + intros e Hd. rewrite Hd. reflexivity.
Qed.

(** X19.  Only the confidential-client branch looks at the scopes passed
    to get_token.  With a pre-set token, or without a client secret, the
    call does the same with any argument as with none: the public-client
    and the ambient path work with the scopes of the instance. *)
Theorem scopes_argument_only_for_exchange (self : Authenticator)
  (scopes : option (list string)) (st : State) :
  token self <> "" \/ opt_truthy (client_secret self) = false ->
  get_token env self scopes st = get_token env self None st.
Proof.
  intros [Ht | Hsec].
  - rewrite !(get_token_preset env self _ st Ht). reflexivity.
  - unfold get_token. destruct (str_truthy (token self)); [reflexivity|].
    rewrite Hsec. destruct scopes as [l|]; [|reflexivity].
    rewrite bind_ret_l, bind_lift.
    destruct (opt_truthy (client_id self)) eqn:Hc.
    + destruct (get_scope_with_client_id self Hc) as [sc0 ->]. reflexivity.
    + rewrite bind_lift.
      destruct (get_scope self) as [e|sc0]; reflexivity.
Qed.

End GetTokenArguments.

Lemma exchange_without_response_witness :
  snd (Authenticator.get_token provider_offline confidential_client None fresh)
  = inl (Raise (LibraryError "ConnectionError") "offline").
Proof.
  destruct (exchange_without_response provider_offline confidential_client None fresh
              "secret" "C" "T" ["S"] eq_refl eq_refl ltac:(discriminate)
              eq_refl eq_refl eq_refl) as [H _].
  rewrite (H _ eq_refl). reflexivity.
Defined.

Lemma scopes_argument_only_for_exchange_witness :
  Authenticator.get_token provider_ambient ambient_client (Some ["X"]) fresh
  = Authenticator.get_token provider_ambient ambient_client None fresh.
Proof.
  apply scopes_argument_only_for_exchange. right. reflexivity.
Defined.

(** ** get_az_token and get_public_app_token *)

Section OtherGetters.

Import Authenticator.

Variable env : Env.

(** X20.  get_az_token looks up the first scope of a list, and treats a
    string as that one scope.  An empty list raises IndexError before
    anything is called.  The token it returns is the first component of
    what the credential's get_token answers for that scope and the
    tenant id. *)
Theorem get_az_token_scope (self : Authenticator) (st : State) :
  (forall s others,
     get_az_token env self (ScopeList (s :: others)) st
     = get_az_token env self (ScopeStr s) st) /\
  (exists e, get_az_token env self (ScopeList []) st = (st, inl e) /\
             exn_cls e = IndexError) /\
  (forall s tid credential t others,
     get_tenant_id self = inr tid ->
     respond env (history st) DefaultAzureCredential = inr credential ->
     respond env (history st ++ [DefaultAzureCredential])
       (credential_get_token credential s tid) = inr (PList (t :: others)) ->
     snd (get_az_token env self (ScopeStr s) st) = inr t /\
     calls_made (get_az_token env self (ScopeStr s)) st
     = [DefaultAzureCredential; credential_get_token credential s tid]).
Proof.
  split; [reflexivity|]. split.
  - eexists. split; reflexivity.
  - intros s tid credential t others Htid Hcred Htok.
    assert (Hrun : get_az_token env self (ScopeStr s) st
                   = (record (credential_get_token credential s tid)
                        (record DefaultAzureCredential st), inr t)).
    { unfold get_az_token; unfold bind, lift, call.
      cbn [history record fst snd]. rewrite Hcred, Htid.
      cbn [history record fst snd]. rewrite Htok. reflexivity. }
    split; [rewrite Hrun; reflexivity|].
    apply calls_made_unique. rewrite Hrun. cbn. rewrite <- app_assoc. reflexivity.
Qed.

Lemma get_public_app_token_shape (self : Authenticator) (scope : option scope_arg)
  (tid cid : string) (sc : list string) :
  get_tenant_id self = inr tid -> get_client_id self = inr cid ->
  get_scope self = inr sc ->
  emits (get_auth_call tid cid sc (PStr (upper env (user_name self)))
           (bearerauth.resolve_authority tid (PStr "")))
    (get_public_app_token env self None scope).
Proof.
  intros Htid Hcid Hsc st. rewrite get_public_app_token_default.
  rewrite bind_lift, Htid, bind_lift, Hcid, bind_lift, Hsc.
  assert (H : emits (get_auth_call tid cid sc (PStr (upper env (user_name self)))
                       (bearerauth.resolve_authority tid (PStr "")))
                (auth <- bearerauth.get_auth env tid cid sc
                           (PStr (upper env (user_name self))) (PStr "") (PStr "") false ;;
                 ret (self, bearerauth.token auth))).
  { apply emits_bind; [apply get_auth_shape | intros auth; apply emits_ret]. }
  exact (H st).
Qed.

(** X21.  get_public_app_token with a non-empty username stores it in
    the instance, as given, and goes on as a call without username
    would on that instance; without one, or with an empty one, it works
    with the stored name.  Its [scope] argument plays no part.  The name
    it lists the cached accounts for is the upper-cased one, and the
    call is made with the default cache location and the tenant's
    default authority. *)
Theorem get_public_app_token_username (self : Authenticator) (scope : option scope_arg)
  (st : State) :
  (forall u, u <> "" ->
     get_public_app_token env self (Some u) scope st
     = get_public_app_token env (set_user_name_attr self u) None None st) /\
  get_public_app_token env self (Some "") scope st
  = get_public_app_token env self None None st /\
  get_public_app_token env self None scope st
  = get_public_app_token env self None None st /\
  (forall tid cid sc,
     get_tenant_id self = inr tid -> get_client_id self = inr cid ->
     get_scope self = inr sc ->
     Forall (fun c =>
               (forall app name, c = get_accounts app name ->
                  name = PStr (upper env (user_name self))) /\
               (forall id authority cache,
                  c = PublicClientApplication id authority cache ->
                  id = cid /\
                  authority = PStr ("https://login.microsoftonline.com/" ++ tid)))
       (calls_made (get_public_app_token env self None None) st)).
Proof.
  split; [|split; [|split]].
  - intros u Hne. unfold get_public_app_token. cbn [opt_truthy].
    destruct u; [contradiction | reflexivity].
  - reflexivity.
  - reflexivity.
  - intros tid cid sc Htid Hcid Hsc.
    destruct (emits_calls_made _ _ st
                (get_public_app_token_shape self None tid cid sc Htid Hcid Hsc))
      as [_ F].
    eapply Forall_impl; [|exact F].
    intros c Hc. split.
    + intros app name ->.
      destruct Hc as [[H | H] | H]; inversion H; subst; reflexivity.
    + intros id authority cache ->.
      destruct Hc as [[H | H] | H]; inversion H; subst. split; reflexivity.
Qed.

End OtherGetters.

Lemma get_az_token_scope_witness :
  snd (Authenticator.get_az_token provider_ambient ambient_client
         (Authenticator.ScopeStr "S") fresh) = inr (PStr "AMBIENT").
Proof.
  destruct (get_az_token_scope provider_ambient ambient_client fresh) as (_ & _ & H).
  destruct (H "S" "T" (PObj 0) (PStr "AMBIENT") [PInt 0] eq_refl eq_refl eq_refl)
    as [H1 _].
  exact H1.
Defined.

Lemma get_public_app_token_username_witness :
  Authenticator.get_public_app_token provider_empty_cache confidential_client
    (Some "bob") None fresh
  = Authenticator.get_public_app_token provider_empty_cache
      (Authenticator.set_user_name_attr confidential_client "bob") None None fresh.
Proof.
  destruct (get_public_app_token_username provider_empty_cache confidential_client
              None fresh) as (H & _).
  apply H. discriminate.
Defined.

(** ** Runs that print nothing *)

Definition is_print (c : Call) : bool :=
  match c with
  | print _ => true
  | _ => false
  end.

Section QuietRuns.

Import bearerauth.

Variable env : Env.

Lemma open_and_list_no_print (clientID : string) (authority tl username : pyval) :
  emits (fun c => is_print c = false)
    (open_and_list env clientID authority tl username).
Proof.
  eapply emits_weaken; [|apply open_and_list_shape].
  intros c H. destruct H; reflexivity.
Qed.

Lemma get_auth_no_print (tenantID clientID : string) (scopes : list string)
  (username token_location authority : pyval) :
  emits (fun c => is_print c = false)
    (get_auth env tenantID clientID scopes username token_location authority false).
Proof.
  intros st.
  assert (H : emits (fun c => is_print c = false)
                (bind (try_except_Exception
                         (open_and_list env clientID (resolve_authority tenantID authority)
                            (effective_location token_location st) username)
                         (recover env clientID (resolve_authority tenantID authority)
                            (effective_location token_location st) username false))
                   (after_cache env tenantID scopes username false))).
  { apply emits_bind.
    - apply emits_try_except_Exception; [apply open_and_list_no_print|].
      unfold recover, delete_cache_file. cbn [when].
      emits_tac; try apply open_and_list_no_print; reflexivity.
    - intros aa. unfold after_cache, silent_step, interactive_step, finish.
      cbn [when]. emits_tac; reflexivity. }
  rewrite get_auth_after_cache. exact (H st).
Qed.

(** X22.  Without [verbose], get_auth prints nothing; neither do the
    module-level get_token and Authenticator.get_token, which never ask
    for verbosity. *)
Theorem quiet_runs_print_nothing (tenantID clientID : string) (scopes : list string)
  (username token_location authority : pyval) (self : Authenticator.Authenticator)
  (scopes' : option (list string)) (st : State) :
  filter is_print
    (calls_made (get_auth env tenantID clientID scopes username token_location
                   authority false) st) = [] /\
  filter is_print (calls_made (get_token env tenantID clientID scopes) st) = [] /\
  filter is_print (calls_made (Authenticator.get_token env self scopes') st) = [].
Proof.
  split; [|split]; apply filter_none; apply (emits_calls_made (fun c => is_print c = false)).
  - apply get_auth_no_print.
  - unfold get_token. emits_tac. apply get_auth_no_print.
  - unfold Authenticator.get_token.
    destruct (Authenticator.str_truthy (Authenticator.token self)); [apply emits_ret|].
    apply emits_bind; [destruct scopes'; emits_tac|]. intros sc.
    destruct (Authenticator.opt_truthy (Authenticator.client_secret self)).
    + unfold Authenticator.client_secret_exchange. emits_tac; reflexivity.
    + destruct (Authenticator.opt_truthy (Authenticator.client_id self)).
      * rewrite get_public_app_token_default. emits_tac. apply get_auth_no_print.
      * unfold Authenticator.get_az_token. emits_tac; reflexivity.
Qed.

End QuietRuns.

Lemma get_token_keeps_instance_witness :
  match snd (Authenticator.get_token provider_ambient ambient_client None fresh) with
  | inr (self', _) => self' = ambient_client
  | inl _ => False
  end.
Proof.
  destruct (Authenticator.get_token provider_ambient ambient_client None fresh)
    as [st' [e | [self' t]]] eqn:H.
  - vm_compute in H. discriminate H.
  - cbn [snd].
    apply (get_token_keeps_instance provider_ambient ambient_client self' None fresh st' t H).
Defined.
